(** * extract_slides.py: slide extraction from an exported HTML document

    A shallow embedding of [src/extract_slides.py] and the properties of its
    section splitter, balanced container scan, style deduplicator and entry
    point.

    Modelling conventions.
    - A Python [str] is a [list ascii] ([pystr]); one [ascii] stands for one
      character, so texts range over the characters below 256.  Literals of the source are written as Rocq string literals
      and coerced.  The two fixed texts of the output shell that hold
      characters above 255 (title and button label) are given by the UTF-8
      bytes of the source file.
    - Offsets are [Z], so that [str.find]'s [-1] and the source's comparisons
      with it read as in the source.
    - [html.unescape] belongs to Python's standard library: its guard
      [if '&' not in s: return s] is modelled as written; the substitution of
      character references it performs otherwise is a parameter, given by
      the text it returns ([charref_sub]) and by whether it raises instead
      ([charref_raises]: [int] refuses a decimal reference of more digits
      than the interpreter's limit).  An exception is caught nowhere in the
      source: it ends the run.
    - The [while] loop of the container scan is a [Fixpoint] on fuel, with
      [None] for fuel exhausted; [scan_enough_fuel] shows that the fuel given
      by [find_container_end] always suffices.  [str.split] and the two
      [re.findall] calls are library code; their left-to-right matching is
      written with [find], again on fuel, and the lemmas [split_from_fuel],
      [findall_style_fuel] and [findall_font_face_fuel] show that the fuel
      given is enough.
    - The file system is a working directory without links: it maps a
      path to what it holds, a text file, a file that is not text, or a
      directory.  A run yields the lines printed, the way it ended and the
      files it leaves. *)

From Stdlib Require Import ZArith Ascii String Decimal DecimalString.
From stdpp Require Import base list gmap strings.

Local Open Scope Z_scope.
#[local] Set Warnings "-clear-no-such-hyp".


(** ** Python strings *)

Abbreviation pystr := (list ascii) (only parsing).

Definition str (s : string) : pystr := String.list_ascii_of_string s.
Coercion str : string >-> list.

(** The double quote character, for literals holding one. *)
Definition dq : pystr := [ascii_of_nat 34].

(** The newline character, [chr(10)]. *)
Definition nl : pystr := [ascii_of_nat 10].

Definition len (s : pystr) : Z := Z.of_nat (length s).

(** [s.startswith(sub)] *)
Fixpoint startswith (sub s : pystr) : bool :=
  match sub, s with
  | [], _ => true
  | _ :: _, [] => false
  | c :: sub', d :: s' => if Ascii.eqb c d then startswith sub' s' else false
  end.

(** Offset of the leftmost occurrence of [sub] in [s]. *)
Fixpoint search (sub s : pystr) : option nat :=
  if startswith sub s then Some 0%nat
  else match s with
       | [] => None
       | _ :: s' => S <$> search sub s'
       end.

(** A negative index counts from the end, as Python normalises it. *)
Definition norm_index (s : pystr) (i : Z) : Z :=
  if i <? 0 then Z.max 0 (i + len s) else i.

(** [s.find(sub, start)]: the lowest index [>= start] at which [sub] occurs,
    or [-1]. *)
Definition find (s sub : pystr) (start : Z) : Z :=
  let start := norm_index s start in
  if len s <? start then -1
  else match search sub (drop (Z.to_nat start) s) with
       | Some k => start + Z.of_nat k
       | None => -1
       end.

(** [sub in s] *)
Definition contains (sub s : pystr) : bool :=
  match search sub s with Some _ => true | None => false end.

(** [s[i:j]] *)
Definition slice (s : pystr) (i j : Z) : pystr :=
  let i := Z.min (norm_index s i) (len s) in
  let j := Z.min (norm_index s j) (len s) in
  take (Z.to_nat (j - i)) (drop (Z.to_nat i) s).

(** Whitespace of [str.strip()] among the characters below 256. *)
Definition isspace (c : ascii) : bool :=
  let n := nat_of_ascii c in
  ((9 <=? n) && (n <=? 13) || (28 <=? n) && (n <=? 32)
   || (n =? 133) || (n =? 160))%nat.

Fixpoint lstrip (s : pystr) : pystr :=
  match s with
  | c :: s' => if isspace c then lstrip s' else s
  | [] => []
  end.

Definition rstrip (s : pystr) : pystr := reverse (lstrip (reverse s)).

(** [s.strip()] *)
Definition strip (s : pystr) : pystr := rstrip (lstrip s).

(** [sep.join(l)] *)
Fixpoint join (sep : pystr) (l : list pystr) : pystr :=
  match l with
  | [] => []
  | [x] => x
  | x :: l' => x ++ sep ++ join sep l'
  end.

(** [s.split(sep)] for a non-empty [sep]: cut at the leftmost occurrence,
    continue after it. *)
Fixpoint split_from (fuel : nat) (s sep : pystr) (pos : Z) : list pystr :=
  let j := find s sep pos in
  match fuel with
  | S fuel' =>
      if j <? 0 then [slice s pos (len s)]
      else slice s pos j :: split_from fuel' s sep (j + len sep)
  | O => [slice s pos (len s)]
  end.

Definition split (s sep : pystr) : list pystr :=
  split_from (length s) s sep 0.

(** [str(n)] for a natural number. *)
Definition str_of_nat (n : nat) : pystr :=
  str (NilEmpty.string_of_uint (Nat.to_uint n)).

(** ** Pattern matching of the two regular expressions

    [re.findall] is library code; for the two fixed patterns of the source
    its leftmost, non-overlapping matching is written out with [find]. *)

(** [re.findall(r'@font-face\{[^}]+\}', content)]: at an occurrence of
    [@font-face{] the class [[^}]+] must take at least one character up to
    the first [}]; a failed start is retried one character further. *)
Fixpoint findall_font_face (fuel : nat) (content : pystr) (pos : Z)
  : list pystr :=
  match fuel with
  | O => []
  | S fuel' =>
      let i := find content "@font-face{" pos in
      if i <? 0 then []
      else
        let j := find content "}" (i + 11) in
        if i + 11 <? j
        then slice content i (j + 1) :: findall_font_face fuel' content (j + 1)
        else findall_font_face fuel' content (i + 1)
  end.

(** [re.findall(r'<style[^>]*>(.*?)</style>', content, re.DOTALL)]: the
    opening tag runs to the first [>], the group lazily to the first
    [</style>] after it; the group's text is returned. *)
Fixpoint findall_style (fuel : nat) (content : pystr) (pos : Z)
  : list pystr :=
  match fuel with
  | O => []
  | S fuel' =>
      let i := find content "<style" pos in
      if i <? 0 then []
      else
        let j := find content ">" (i + 6) in
        let k := find content "</style>" (j + 1) in
        if (0 <=? j) && (0 <=? k)
        then slice content (j + 1) k :: findall_style fuel' content (k + 8)
        else findall_style fuel' content (i + 1)
  end.

(** ** The style deduplicator (source lines 27-36) *)

(** The loop over [style_matches], with its state [seen_styles],
    [unique_styles]. *)
Fixpoint dedup_loop (style_matches : list pystr) (seen_styles : gset pystr)
    (unique_styles : list pystr) : gset pystr * list pystr :=
  match style_matches with
  | [] => (seen_styles, unique_styles)
  | style :: rest =>
      if bool_decide (style ∉ seen_styles) && (100 <? len style)
      then dedup_loop rest ({[style]} ∪ seen_styles) (unique_styles ++ [style])
      else dedup_loop rest seen_styles unique_styles
  end.

Definition dedup (style_matches : list pystr) : list pystr :=
  snd (dedup_loop style_matches ∅ []).

Definition style_matches_of (content : pystr) : list pystr :=
  findall_style (S (length content)) content 0.

Definition unique_styles_of (content : pystr) : list pystr :=
  dedup (style_matches_of content).

Definition font_faces_of (content : pystr) : list pystr :=
  findall_font_face (S (length content)) content 0.

(** ** The balanced container scan (source lines 59-84) *)

(** The opening tag marker of the slide container: [<div class=],
    a double quote, [slide-container]. *)
Definition container_marker : pystr := str "<div class=" ++ dq ++ str "slide-container".

(** The [while] loop with its state [div_count], [pos]; the result is
    [container_end] ([-1] when it is never assigned), [None] when the fuel
    runs out. *)
Fixpoint scan (fuel : nat) (slide_html : pystr) (div_count pos : Z)
  : option Z :=
  match fuel with
  | O => None
  | S fuel' =>
      if pos <? len slide_html then
        let next_open := find slide_html "<div" pos in
        let next_close := find slide_html "</div>" pos in
        if next_close <? 0 then Some (-1)
        else if (0 <=? next_open) && (next_open <? next_close)
        then scan fuel' slide_html (div_count + 1) (next_open + 4)
        else if div_count =? 0 then Some (next_close + 6)
        else scan fuel' slide_html (div_count - 1) (next_close + 6)
      else Some (-1)
  end.

Definition find_container_end (slide_html : pystr) (container_start : Z) : Z :=
  default (-1) (scan (S (length slide_html)) slide_html 0 container_start).

(** ** Extraction of the slides (source lines 40-89) *)

Section Extract.

(** [_charref.sub(_replace_charref, s)] of [html.unescape]. *)
Variable charref_sub : pystr -> pystr.

(** Whether [_charref.sub(_replace_charref, s)] raises, as [int] does on a
    decimal reference with more digits than the interpreter's limit. *)
Variable charref_raises : pystr -> bool.

(** [html.unescape(s)]: the text it returns when it returns. *)
Definition unescape (s : pystr) : pystr :=
  if contains "&" s then charref_sub s else s.

(** Whether [html.unescape(s)] raises. *)
Definition unescape_raises (s : pystr) : bool :=
  contains "&" s && charref_raises s.

(** One iteration of the loop over [body_splits[1:]]: the new value of
    [slides]. *)
Definition section_step (slides : list pystr) (section : pystr) : list pystr :=
  if negb (contains "slide-container" section) then slides
  else
    let slide_html := unescape section in
    let container_start := find slide_html container_marker 0 in
    if container_start <? 0 then slides
    else
      let container_end := find_container_end slide_html container_start in
      if container_start <? container_end
      then slides ++ [strip (slice slide_html container_start container_end)]
      else slides.

Definition body_splits (content : pystr) : list pystr := split content "<body>".

Definition slides_of (content : pystr) : list pystr :=
  foldl section_step [] (tail (body_splits content)).

(** The loop over the sections with its exceptions: [None] when the call of
    [html.unescape] of source line 49 raises for some section, the value of
    [slides] after the loop otherwise. *)
Fixpoint extraction_loop (slides : list pystr) (sections : list pystr)
  : option (list pystr) :=
  match sections with
  | [] => Some slides
  | section :: rest =>
      if contains "slide-container" section && unescape_raises section
      then None
      else extraction_loop (section_step slides section) rest
  end.

Definition extraction (content : pystr) : option (list pystr) :=
  extraction_loop [] (tail (body_splits content)).

(** ** Assembly of the output document (source lines 93-179) *)

(** The three fixed parts of the f-string of source lines 94-172, around
    the font faces and the styles. *)
Definition shell_head : pystr :=
  str "<!DOCTYPE html>
<html lang="
  ++ dq
  ++ str "uk"
  ++ dq
  ++ str ">
<head>
    <meta charset="
  ++ dq
  ++ str "UTF-8"
  ++ dq
  ++ str ">
    <meta name="
  ++ dq
  ++ str "viewport"
  ++ dq
  ++ str " content="
  ++ dq
  ++ str "width=1280, initial-scale=1.0"
  ++ dq
  ++ str ">
    <title>–ê–∫–∞–¥–µ–º—ñ—á–Ω–∏–π –ø–ª–∞–≥—ñ–∞—Ç - –ï–∫—Å–ø–æ—Ä—Ç —Å–ª–∞–π–¥—ñ–≤</title>
    
    <style>
        /* Font faces */
        ".

Definition shell_styles : pystr :=
  str "
        
        /* All extracted styles */
        ".

Definition shell_print : pystr :=
  str "
        
        /* Print styles */
        @page {
            size: 1280px 720px landscape;
            margin: 0;
        }
        
        body {
            margin: 0;
            padding: 0;
            background: #000;
            -webkit-print-color-adjust: exact !important;
            print-color-adjust: exact !important;
            color-adjust: exact !important;
        }
        
        .slide {
            width: 1280px;
            height: 720px;
            page-break-after: always;
            break-after: page;
            page-break-inside: avoid;
            break-inside: avoid;
            position: relative;
            overflow: hidden;
        }
        
        .slide:last-child {
            page-break-after: auto;
        }
        
        @media print {
            .print-btn { 
                display: none !important; 
            }
            body { 
                -webkit-print-color-adjust: exact !important;
                print-color-adjust: exact !important;
                color-adjust: exact !important;
            }
        }
        
        .print-btn {
            position: fixed;
            top: 20px;
            right: 20px;
            padding: 15px 30px;
            background: #4CAF50;
            color: white;
            border: none;
            border-radius: 8px;
            font-size: 18px;
            cursor: pointer;
            z-index: 9999;
            box-shadow: 0 4px 15px rgba(0,0,0,0.3);
        }
        
        .print-btn:hover {
            background: #45a049;
        }
    </style>
</head>
<body>
    <button onclick="
  ++ dq
  ++ str "window.print()"
  ++ dq
  ++ str " class="
  ++ dq
  ++ str "print-btn"
  ++ dq
  ++ str ">üñ®Ô∏è –ü–µ—á–∞—Ç—å –≤ PDF</button>
    
".

(** The f-string as a whole. *)
Definition shell (font_faces : list pystr) (all_styles : pystr) : pystr :=
  shell_head ++ join nl font_faces
  ++ shell_styles ++ all_styles ++ shell_print.

(** One iteration of the loop of source lines 175-176. *)
Definition add_slide (output_html slide_content : pystr) : pystr :=
  output_html ++ (str "    <div class=" ++ dq ++ str "slide" ++ dq ++ str ">"
                  ++ nl ++ slide_content ++ nl ++ str "    </div>" ++ nl).

Definition output_html_of (content : pystr) : pystr :=
  let font_faces := font_faces_of content in
  let all_styles := join nl (unique_styles_of content) in
  let slides := slides_of content in
  foldl add_slide (shell font_faces all_styles) slides
  ++ str "</body>" ++ nl ++ str "</html>".

(** ** The program with its files and standard output *)

(** What a path of the working directory holds: a regular file that reads
    as the text [content], a regular file whose bytes do not decode as
    UTF-8, or a directory. *)
Inductive node : Type :=
  | TextFile (content : pystr)
  | BinaryFile
  | Directory.

(** How a run ends: by falling off the end of the script, by an uncaught
    exception, or by [exit(status)]. *)
Inductive completion : Type :=
  | Returned
  | Raised
  | Exited (status : Z).


(** The effect of a run: the lines printed, how it ended, the files left. *)
Record outcome : Type := Outcome {
  stdout : list pystr;
  ended : completion;
  files : gmap string node
}.

(** [extract_slides(input_file, output_file)]: [open] for reading raises
    on a missing path and on a directory, [read] raises on bytes that do not
    decode, [html.unescape] may raise in the loop; [open] for writing raises
    on a directory and creates or truncates the file otherwise.  The
    document written is [output_html_of content], whose slides are those of
    the loop when no call raised. *)
Definition extract_slides (input_file output_file : string)
    (fs : gmap string node) : outcome :=
  match fs !! input_file with
  | Some (TextFile content) =>
      match extraction content with
      | None => Outcome [] Raised fs
      | Some slides =>
          let found :=
            str "Found " ++ str_of_nat (length slides) ++ str " slides" in
          match fs !! output_file with
          | Some Directory => Outcome [found] Raised fs
          | _ =>
              Outcome
                [found;
                 str "Created " ++ str output_file ++ str " with "
                   ++ str_of_nat (length slides) ++ str " slides"]
                Returned
                (<[output_file := TextFile (output_html_of content)]> fs)
          end
      end
  | _ => Outcome [] Raised fs
  end.

(** The three characters that stand for each colon in the name of the
    input file: code points 212, 186 and 246. *)
Definition colon_chars : string :=
  String (ascii_of_nat 212) (String (ascii_of_nat 186)
    (String (ascii_of_nat 246) EmptyString)).

(** The paths of source lines 188-189. *)
Definition input_file : string :=
  "Genspark (03.12.2025 07" +:+ colon_chars +:+ "41" +:+ colon_chars
  +:+ "35).html".
Definition output_file : string := "slides-export-plagiat.html".

(** The script's entry point (source lines 187-196); [Path.exists] holds for
    a directory as for a file, and [Done!] is printed when [extract_slides]
    has returned. *)
Definition main (fs : gmap string node) : outcome :=
  if bool_decide (fs !! input_file = None)
  then Outcome [str "Error: " ++ str input_file ++ str " not found"] (Exited 1) fs
  else
    let run := extract_slides input_file output_file fs in
    match ended run with
    | Returned => Outcome (stdout run ++ [str "Done!"]) Returned (files run)
    | _ => run
    end.

End Extract.

(** ** Specification-side notions *)

(** [s.count(sub)]: the number of non-overlapping occurrences. *)
Fixpoint count_from (fuel : nat) (s sub : pystr) (pos : Z) : nat :=
  match fuel with
  | O => 0%nat
  | S fuel' =>
      let i := find s sub pos in
      if i <? 0 then 0%nat else S (count_from fuel' s sub (i + len sub))
  end.

Definition count (s sub : pystr) : nat := count_from (S (length s)) s sub 0.

(** The [div] tags of a text from left to right: [true] for an opening tag
    [<div], [false] for a closing tag [</div>]. *)
Fixpoint tags (s : pystr) : list bool :=
  match s with
  | [] => []
  | _ :: s' =>
      if startswith "<div" s then true :: tags s'
      else if startswith "</div>" s then false :: tags s'
      else tags s'
  end.

(** The nesting depth after each tag of a left-to-right scan. *)
Fixpoint depths (d : Z) (ts : list bool) : list Z :=
  match ts with
  | [] => []
  | t :: ts' =>
      let d' := if t then d + 1 else d - 1 in
      d' :: depths d' ts'
  end.

(** [sub] occurs in [s] at offset [p]. *)
Definition occurs (s sub : pystr) (p : nat) : Prop :=
  startswith sub (drop p s) = true.

(** The scan on a sequence of tags: the number of tags up to and including
    the closing tag met with the counter at zero. *)
Fixpoint terminator (ts : list bool) (div_count : Z) : option nat :=
  match ts with
  | [] => None
  | true :: ts' => S <$> terminator ts' (div_count + 1)
  | false :: ts' =>
      if div_count =? 0 then Some 1%nat
      else S <$> terminator ts' (div_count - 1)
  end.

Definition opening_tags (ts : list bool) : nat :=
  length (filter (λ t, t = true) ts).

Definition closing_tags (ts : list bool) : nat :=
  length (filter (λ t, t = false) ts).

(** The container end in the words of the specification: the scan with
    its counter at zero just after the opening tag marker. *)
Definition spec_container_end (slide_html : pystr) (container_start : Z) : Z :=
  default (-1)
    (scan (S (length slide_html)) slide_html 0
       (container_start + len container_marker)).

(** The closing tag of the container at [container_start] is never found:
    the container is never closed (the specification's scan finds no closing
    tag for it), or the scan of the source ends without a container end. *)
Definition closing_tag_never_found (slide_html : pystr) (container_start : Z)
  : Prop :=
  spec_container_end slide_html container_start = -1
  ∨ find_container_end slide_html container_start = -1.

(** The deduplicator in the words of the specification: of the blocks
    longer than the threshold, each distinct text once, in first-seen
    order. *)
Fixpoint keep_first (l : list pystr) : list pystr :=
  match l with
  | [] => []
  | x :: l' => x :: filter (λ y, y ≠ x) (keep_first l')
  end.

Definition substantial (style : pystr) : Prop := 100 < len style.

Definition unique_styles_spec (style_matches : list pystr) : list pystr :=
  keep_first (filter substantial style_matches).

(** How often the text [t] appears in a sequence of blocks. *)
Definition appearances (t : pystr) (l : list pystr) : nat :=
  length (filter (λ x, x = t) l).

(** Python's [set] as the loop of source lines 28-34 uses it: creation,
    [add] and [in].  The order in which a set yields its elements
    ([set_iter]) depends on the hashes of the run and is left open: any order
    that yields the members will do. *)
Class PySet (S : Type) : Type := {
  set_new : S;
  set_add : pystr → S → S;
  set_in : pystr → S → bool;
  set_iter : S → list pystr;
  set_in_new : ∀ x, set_in x set_new = false;
  set_in_add : ∀ x y s,
    set_in x (set_add y s) = bool_decide (x = y) || set_in x s;
  set_iter_in : ∀ x s, x ∈ set_iter s ↔ set_in x s = true
}.




(** Membership in the two carriers used for sets below. *)
Definition gset_mem (x : pystr) (s : gset pystr) : bool := bool_decide (x ∈ s).

(** The number of leading decimal digits of a text. *)
Fixpoint digits_run (s : pystr) : nat :=
  match s with
  | c :: s' =>
      if ((48 <=? nat_of_ascii c) && (nat_of_ascii c <=? 57))%nat
      then S (digits_run s') else 0%nat
  | [] => 0%nat
  end.

(** Python 3.11 with its default limit: [int] raises [ValueError] on more
    than 4300 decimal digits, so [html.unescape] raises on a text that holds
    [&#] followed by more than 4300 decimal digits. *)
Fixpoint oversized_reference (s : pystr) : bool :=
  match s with
  | [] => false
  | _ :: s' =>
      startswith "&#" s && (4300 <? digits_run (drop 1 s'))%nat
      || oversized_reference s'
  end.

(** [x] stands in [s] as it is: a contiguous piece of it. *)
Definition substring_of (x s : pystr) : Prop := ∃ pre post, s = pre ++ x ++ post.

(** The text the loop of source lines 175-176 adds for one slide. *)
Definition slide_wrapper (slide_content : pystr) : pystr :=
  str "    <div class=" ++ dq ++ str "slide" ++ dq ++ str ">"
  ++ nl ++ slide_content ++ nl ++ str "    </div>" ++ nl.

(** What [find_container_end] gives for a text that is moved [shift]
    characters to the right. *)
Definition shifted (shift e : Z) : Z := if e <? 0 then e else shift + e.

(** ** Example inputs *)


(** The marker, the rest of the opening tag, the text [x] and the closing
    tag [</div>]: a balanced container element and nothing else. *)
Definition bare_container : pystr :=
  container_marker ++ dq ++ str ">x</div>".

(** The same element inside a wrapping [div]. *)
Definition wrapped_container : pystr :=
  str "<div class=" ++ dq ++ str "wrap" ++ dq ++ str ">"
  ++ bare_container ++ str "</div>".

(** A slide container holding a nested, unrelated [div], balanced. *)
Definition nested_container (text : pystr) : pystr :=
  container_marker ++ dq ++ str "><div class=" ++ dq ++ str "title" ++ dq
  ++ str ">" ++ text ++ str "</div></div>".

(** Two body-delimited sections, each with one such container. *)
Definition two_slides_document : pystr :=
  str "<html><head></head><body>" ++ nested_container (str "A")
  ++ str "</body><body>" ++ nested_container (str "B")
  ++ str "</body></html>".

(** The same document with one more closing tag after each container. *)
Definition two_trailing_closes_document : pystr :=
  str "<html><head></head><body>" ++ nested_container (str "A")
  ++ str "</div></body><body>" ++ nested_container (str "B")
  ++ str "</div></body></html>".

(** A container that is opened and never closed. *)
Definition unclosed_section : pystr :=
  container_marker ++ dq ++ str ">x".

Definition unclosed_then_wrapped : pystr :=
  str "<head></head><body>" ++ unclosed_section
  ++ str "<body>" ++ wrapped_container.

(** The same short style block twice. *)
Definition short_style_twice : pystr :=
  str "<style>a</style><style>a</style>".

(** A style block of 101 characters, twice. *)
Definition long_style : pystr := replicate 101 "a"%char.

Definition long_style_twice : pystr :=
  str "<style>" ++ long_style ++ str "</style><style>" ++ long_style
  ++ str "</style>".

(** A section with an unclosed container and a decimal character reference
    of 4301 digits, followed by a section with a wrapped container. *)
Definition oversized_reference_section : pystr :=
  unclosed_section ++ str "&#" ++ replicate 4301 "1"%char.

Definition oversized_reference_document : pystr :=
  str "<head></head><body>" ++ oversized_reference_section
  ++ str "<body>" ++ wrapped_container.

(** A document with a style block of 101 characters after a tag with
    attributes, and a font face. *)
Definition styled_document : pystr :=
  str "<style media=print>" ++ long_style ++ str "</style>"
  ++ str "@font-face{font-family:A}".




(** * Properties *)

(** ** Searching *)

Lemma startswith_iff sub s : startswith sub s = true ↔ ∃ t, s = sub ++ t.
Proof.
  revert s. induction sub as [|c sub IH]; intros s; simpl.
  - split; eauto.
  - destruct s as [|d s].
    { split; [done | by intros [t Ht]]. }
    destruct (Ascii.eqb_spec c d) as [->|Hne].
    + rewrite IH. split; intros [t Ht]; exists t; simplify_eq/=; done.
    + split; [done | intros [t Ht]; simplify_eq/=].
Qed.

Lemma startswith_length sub s :
  startswith sub s = true → (length sub ≤ length s)%nat.
Proof.
  intros [t ->]%startswith_iff. rewrite length_app. lia.
Qed.

Lemma occurs_split s sub p :
  occurs s sub p ↔ ∃ t, drop p s = sub ++ t.
Proof. apply startswith_iff. Qed.

Lemma occurs_bound s sub p :
  sub ≠ [] → occurs s sub p → (p + length sub ≤ length s)%nat.
Proof.
  intros Hsub Hp. apply startswith_length in Hp as Hl.
  rewrite length_drop in Hl. destruct sub; [done|]. simpl in *. lia.
Qed.

Lemma occurs_lookup s sub p i c :
  occurs s sub p → sub !! i = Some c → s !! (p + i)%nat = Some c.
Proof.
  intros [t Ht]%occurs_split Hi.
  rewrite <- lookup_drop, Ht. by apply lookup_app_l_Some.
Qed.

Lemma search_Some sub s k :
  search sub s = Some k →
  occurs s sub k ∧ ∀ j, (j < k)%nat → ¬ occurs s sub j.
Proof.
  unfold occurs. revert k. induction s as [|c s IH]; intros k; simpl.
  - destruct (startswith sub []) eqn:E; [|done].
    intros [= <-]. split; [done | lia].
  - destruct (startswith sub (c :: s)) eqn:E.
    + intros [= <-]. split; [done | lia].
    + destruct (search sub s) as [k'|] eqn:Es; [|done].
      intros [= <-]. destruct (IH k' eq_refl) as [H1 H2]. split; [done|].
      intros [|j] Hj; simpl; [by rewrite E | apply H2; lia].
Qed.

Lemma search_None sub s j : search sub s = None → ¬ occurs s sub j.
Proof.
  unfold occurs. revert j. induction s as [|c s IH]; intros j; simpl.
  - destruct (startswith sub []) eqn:E; [done|].
    intros _. by rewrite drop_nil, E.
  - destruct (startswith sub (c :: s)) eqn:E; [done|].
    destruct (search sub s) eqn:Es; [done|].
    intros _. destruct j as [|j]; simpl; [by rewrite E | by apply IH].
Qed.

Lemma contains_false sub s :
  contains sub s = false ↔ ∀ j, ¬ occurs s sub j.
Proof.
  unfold contains. destruct (search sub s) as [k|] eqn:E.
  - apply search_Some in E as [Hk _]. split; [done | intros H; by destruct (H k)].
  - split; [intros _ j; by apply search_None | done].
Qed.

(** What [find] returns for a non-negative start and a non-empty needle. *)
Lemma find_spec s sub start :
  0 ≤ start → sub ≠ [] →
  (find s sub start = -1 ∧
   ∀ p, (Z.to_nat start ≤ p)%nat → ¬ occurs s sub p)
  ∨ (start ≤ find s sub start ∧ find s sub start + len sub ≤ len s ∧
     occurs s sub (Z.to_nat (find s sub start)) ∧
     ∀ p, (Z.to_nat start ≤ p < Z.to_nat (find s sub start))%nat →
          ¬ occurs s sub p).
Proof.
  intros Hstart Hsub. unfold find, norm_index.
  destruct (Z.ltb_spec start 0) as [?|_]; [lia|].
  destruct (Z.ltb_spec (len s) start) as [Hlt|Hle].
  - left. split; [done|]. intros p Hp Hocc.
    apply occurs_bound in Hocc; [|done]. unfold len in Hlt. lia.
  - destruct (search sub (drop (Z.to_nat start) s)) as [k|] eqn:E.
    + right. apply search_Some in E as [Hk Hmin].
      unfold occurs in Hk. rewrite drop_drop in Hk.
      replace (Z.to_nat (start + Z.of_nat k)) with (Z.to_nat start + k)%nat by lia.
      split; [lia|]. split.
      { apply occurs_bound in Hk; [|done]. unfold len. lia. }
      split; [done|]. intros p Hp Hocc.
      apply (Hmin (p - Z.to_nat start)%nat); [lia|].
      unfold occurs. rewrite drop_drop.
      by replace (Z.to_nat start + (p - Z.to_nat start))%nat with p by lia.
    + left. split; [done|]. intros p Hp Hocc.
      apply (search_None _ _ (p - Z.to_nat start)%nat) in E. apply E.
      unfold occurs. rewrite drop_drop.
      by replace (Z.to_nat start + (p - Z.to_nat start))%nat with p by lia.
Qed.

Lemma find_neg s sub start :
  0 ≤ start → sub ≠ [] → find s sub start < 0 →
  ∀ p, (Z.to_nat start ≤ p)%nat → ¬ occurs s sub p.
Proof.
  intros H1 H2 Hneg. destruct (find_spec s sub start H1 H2) as [[_ H]|[H _]];
    [done | lia].
Qed.

Lemma find_nonneg s sub start :
  0 ≤ start → sub ≠ [] → 0 ≤ find s sub start →
  start ≤ find s sub start ∧ find s sub start + len sub ≤ len s ∧
  occurs s sub (Z.to_nat (find s sub start)) ∧
  ∀ p, (Z.to_nat start ≤ p < Z.to_nat (find s sub start))%nat →
       ¬ occurs s sub p.
Proof.
  intros H1 H2 Hnn. destruct (find_spec s sub start H1 H2) as [[H _]|H];
    [lia | done].
Qed.

Lemma find_beyond s sub start : len s < start → find s sub start = -1.
Proof.
  intros Hlt. unfold find, norm_index.
  destruct (Z.ltb_spec start 0); [unfold len in *; lia|].
  by destruct (Z.ltb_spec (len s) start); [|lia].
Qed.

Lemma find_ge s sub start :
  0 ≤ start → sub ≠ [] → 0 ≤ find s sub start → start ≤ find s sub start.
Proof. intros H1 H2 H3. by destruct (find_nonneg s sub start H1 H2 H3). Qed.

(** ** The fuel of the pattern matchers

    With more fuel than characters left, more fuel changes nothing. *)

Lemma findall_style_fuel fuel fuel' content pos :
  0 ≤ pos → len content - pos < Z.of_nat fuel → (fuel ≤ fuel')%nat →
  findall_style fuel' content pos = findall_style fuel content pos.
Proof.
  revert fuel' pos. induction fuel as [|fuel IH];
    intros fuel' pos Hpos Hfuel Hle.
  { destruct fuel'; [done|]. cbn [findall_style].
    rewrite find_beyond by lia. done. }
  destruct fuel' as [|fuel']; [lia|]. cbn [findall_style].
  set (i := find content "<style" pos).
  destruct (Z.ltb_spec i 0) as [|Hi]; [done|].
  pose proof (find_ge content "<style" pos Hpos ltac:(done) Hi) as Hge.
  fold i in Hge. set (j := find content ">" (i + 6)).
  destruct (Z.leb_spec 0 j) as [Hj|Hj]; cbn [andb]; [|apply IH; lia].
  assert (i + 6 ≤ j) as Hgj by (apply find_ge; [lia | done | done]).
  set (k := find content "</style>" (j + 1)).
  destruct (Z.leb_spec 0 k) as [Hk|Hk]; [|apply IH; lia].
  assert (j + 1 ≤ k) as Hgk by (apply find_ge; [lia | done | done]).
  f_equal. apply IH; lia.
Qed.

Lemma findall_font_face_fuel fuel fuel' content pos :
  0 ≤ pos → len content - pos < Z.of_nat fuel → (fuel ≤ fuel')%nat →
  findall_font_face fuel' content pos = findall_font_face fuel content pos.
Proof.
  revert fuel' pos. induction fuel as [|fuel IH];
    intros fuel' pos Hpos Hfuel Hle.
  { destruct fuel'; [done|]. cbn [findall_font_face].
    rewrite find_beyond by lia. done. }
  destruct fuel' as [|fuel']; [lia|]. cbn [findall_font_face].
  destruct (Z.ltb_spec (find content "@font-face{" pos) 0) as [|Hi]; [done|].
  pose proof (find_ge content "@font-face{" pos Hpos ltac:(done) Hi) as Hge.
  destruct (Z.ltb_spec (find content "@font-face{" pos + 11)
              (find content "}" (find content "@font-face{" pos + 11)));
    [|apply IH; lia].
  f_equal. apply IH; lia.
Qed.

Lemma count_from_fuel fuel fuel' s sub pos :
  sub ≠ [] → 0 ≤ pos → len s - pos < Z.of_nat fuel → (fuel ≤ fuel')%nat →
  count_from fuel' s sub pos = count_from fuel s sub pos.
Proof.
  intros Hsub. revert fuel' pos. induction fuel as [|fuel IH];
    intros fuel' pos Hpos Hfuel Hle.
  { destruct fuel'; [done|]. cbn [count_from].
    rewrite find_beyond by lia. done. }
  destruct fuel' as [|fuel']; [lia|]. cbn [count_from].
  destruct (Z.ltb_spec (find s sub pos) 0) as [|Hi]; [done|].
  pose proof (find_ge s sub pos Hpos Hsub Hi) as Hge.
  assert (0 < len sub) by (unfold len; destruct sub; [done | simpl; lia]).
  f_equal. apply IH; lia.
Qed.

Lemma split_from_fuel fuel fuel' s sep pos :
  sep ≠ [] → 0 ≤ pos → len s - pos ≤ Z.of_nat fuel → (fuel ≤ fuel')%nat →
  split_from fuel' s sep pos = split_from fuel s sep pos.
Proof.
  intros Hsep. revert fuel' pos. induction fuel as [|fuel IH];
    intros fuel' pos Hpos Hfuel Hle.
  { destruct fuel'; [done|]. cbn [split_from].
    destruct (Z.ltb_spec (find s sep pos) 0) as [|Hi]; [done|].
    destruct (find_nonneg s sep pos Hpos Hsep Hi) as (? & ? & _).
    assert (0 < len sep) by (unfold len; destruct sep; [done | simpl; lia]).
    lia. }
  destruct fuel' as [|fuel']; [lia|]. cbn [split_from].
  destruct (Z.ltb_spec (find s sep pos) 0) as [|Hi]; [done|].
  pose proof (find_ge s sep pos Hpos Hsep Hi) as Hge.
  assert (0 < len sep) by (unfold len; destruct sep; [done | simpl; lia]).
  f_equal. apply IH; lia.
Qed.

(** ** Slicing and stripping *)

Lemma slice_inside s i j :
  0 ≤ i → i ≤ j → j ≤ len s →
  slice s i j = take (Z.to_nat (j - i)) (drop (Z.to_nat i) s).
Proof.
  intros Hi Hij Hj. unfold slice, norm_index.
  destruct (Z.ltb_spec i 0); [lia|]. destruct (Z.ltb_spec j 0); [lia|].
  by rewrite !Z.min_l by lia.
Qed.

Lemma slice_to_end s i :
  0 ≤ i → i ≤ len s → slice s i (len s) = drop (Z.to_nat i) s.
Proof.
  intros Hi Hl. rewrite slice_inside by lia.
  apply take_ge. rewrite length_drop. unfold len in *. lia.
Qed.

(** The slice that ends with an occurrence of [sub] at [q] and starts at
    [p <= q]. *)
Lemma slice_through s sub p q :
  (p ≤ q)%nat → occurs s sub q →
  take (q + length sub - p) (drop p s) = take (q - p) (drop p s) ++ sub.
Proof.
  intros Hpq [t Ht]%occurs_split.
  rewrite <- (take_drop (q - p) (drop p s)) at 1.
  rewrite drop_drop. replace (p + (q - p))%nat with q by lia. rewrite Ht.
  destruct (decide (q ≤ length s)%nat) as [Hq|Hq].
  - rewrite take_app_ge by (rewrite length_take, length_drop; lia).
    f_equal. rewrite length_take, length_drop.
    replace (q + length sub - p - (q - p) `min` (length s - p))%nat
      with (length sub) by lia.
    by rewrite take_app_length.
  - rewrite drop_ge in Ht by lia. destruct sub; [|done]. simpl.
    destruct t; [|done]. rewrite !app_nil_r, Nat.add_0_r.
    by rewrite take_take, Nat.min_id.
Qed.

Lemma lstrip_nonspace c s : isspace c = false → lstrip (c :: s) = c :: s.
Proof. intros H. simpl. by rewrite H. Qed.

Lemma strip_wrapped c1 m c2 :
  isspace c1 = false → isspace c2 = false →
  strip (c1 :: m ++ [c2]) = c1 :: m ++ [c2].
Proof.
  intros H1 H2. unfold strip, rstrip. rewrite lstrip_nonspace by done.
  change (c1 :: m ++ [c2]) with ((c1 :: m) ++ [c2]).
  rewrite reverse_app, reverse_singleton. simpl app.
  rewrite lstrip_nonspace by done.
  by rewrite reverse_cons, reverse_involutive.
Qed.

(** ** Splitting and joining *)

Lemma occurs_take t sub n k :
  sub ≠ [] → occurs (take n t) sub k →
  occurs t sub k ∧ (k + length sub ≤ n)%nat.
Proof.
  intros Hsub Hocc. pose proof (occurs_bound _ _ _ Hsub Hocc) as Hb.
  rewrite length_take in Hb. split; [|lia].
  apply occurs_split in Hocc as [r Hr]. apply occurs_split.
  exists (r ++ drop n t).
  rewrite <- (take_drop n t) at 1.
  rewrite drop_app_le by (rewrite length_take; lia).
  by rewrite Hr, <- app_assoc.
Qed.

Lemma split_from_nonempty fuel s sep pos : split_from fuel s sep pos ≠ [].
Proof. destruct fuel; simpl; [done|]. by case_match. Qed.

Lemma join_cons sep x l :
  l ≠ [] → join sep (x :: l) = x ++ sep ++ join sep l.
Proof. by destruct l. Qed.

(** Joining the pieces with the separator gives the text back. *)
Lemma join_split_from fuel s sep pos :
  sep ≠ [] → 0 ≤ pos → pos ≤ len s →
  join sep (split_from fuel s sep pos) = drop (Z.to_nat pos) s.
Proof.
  intros Hsep. revert pos. induction fuel as [|fuel IH]; intros pos Hpos Hlen.
  { simpl. by apply slice_to_end. }
  cbn [split_from].
  destruct (Z.ltb_spec (find s sep pos) 0) as [Hneg|Hnn].
  { simpl. by apply slice_to_end. }
  destruct (find_nonneg _ _ _ Hpos Hsep Hnn) as (Hle & Hend & Hocc & _).
  rewrite join_cons by apply split_from_nonempty.
  assert (0 < len sep) by (unfold len; destruct sep; [done | simpl; lia]).
  rewrite IH by lia. rewrite slice_inside by lia.
  apply occurs_split in Hocc as [t Ht].
  rewrite <- (take_drop (Z.to_nat (find s sep pos - pos)) (drop (Z.to_nat pos) s)) at 2.
  f_equal. rewrite drop_drop.
  replace (Z.to_nat pos + Z.to_nat (find s sep pos - pos))%nat
    with (Z.to_nat (find s sep pos)) by lia.
  rewrite Ht.
  replace (Z.to_nat (find s sep pos + len sep))
    with (Z.to_nat (find s sep pos) + length sep)%nat by (unfold len; lia).
  rewrite <- drop_drop, Ht. by rewrite drop_app_length.
Qed.

(** With enough fuel no piece holds the separator. *)
Lemma split_from_pieces fuel s sep pos :
  sep ≠ [] → 0 ≤ pos → len s - pos ≤ Z.of_nat fuel →
  Forall (λ piece, contains sep piece = false) (split_from fuel s sep pos).
Proof.
  intros Hsep. revert pos. induction fuel as [|fuel IH]; intros pos Hpos Hfuel.
  - simpl. apply Forall_singleton, contains_false. intros k Hocc.
    apply occurs_bound in Hocc; [|done].
    unfold slice in Hocc. rewrite length_take, length_drop in Hocc.
    unfold norm_index in Hocc. destruct (Z.ltb_spec pos 0); [lia|].
    destruct sep; [done|]. simpl in Hocc. unfold len in *. lia.
  - cbn [split_from].
    destruct (Z.ltb_spec (find s sep pos) 0) as [Hneg|Hnn].
    + apply Forall_singleton, contains_false. intros k Hocc.
      destruct (Z.le_gt_cases pos (len s)) as [Hin|Hout].
      * rewrite slice_to_end in Hocc by done.
        unfold occurs in Hocc. rewrite drop_drop in Hocc.
        by apply (find_neg _ _ _ Hpos Hsep Hneg (Z.to_nat pos + k)%nat ltac:(lia)).
      * apply occurs_bound in Hocc; [|done].
        unfold slice in Hocc. rewrite length_take, length_drop in Hocc.
        unfold norm_index in Hocc. destruct (Z.ltb_spec pos 0); [lia|].
        destruct sep; [done|]. simpl in Hocc. unfold len in *. lia.
    + destruct (find_nonneg _ _ _ Hpos Hsep Hnn) as (Hle & Hend & _ & Hmin).
      assert (0 < len sep) by (unfold len; destruct sep; [done | simpl; lia]).
      apply Forall_cons. split; [|apply IH; lia].
      apply contains_false. intros k Hocc.
      rewrite slice_inside in Hocc by lia.
      apply occurs_take in Hocc as [Hocc Hk]; [|done].
      unfold occurs in Hocc. rewrite drop_drop in Hocc.
      apply (Hmin (Z.to_nat pos + k)%nat); [|done].
      destruct sep; [done|]. simpl in Hk. lia.
Qed.

(** A text without the separator is its own single piece. *)
Lemma split_no_sep s sep :
  sep ≠ [] → contains sep s = false → split s sep = [s].
Proof.
  intros Hsep Hno. pose proof (proj1 (contains_false _ _) Hno) as Hnone.
  assert (find s sep 0 < 0) as Hneg.
  { destruct (find_spec s sep 0 ltac:(lia) Hsep) as [[-> _]|(_ & _ & Hocc & _)];
      [lia | by destruct (Hnone _ Hocc)]. }
  assert (slice s 0 (len s) = s) as Hall.
  { rewrite slice_to_end by (unfold len; lia). apply drop_0. }
  unfold split. destruct (length s); cbn [split_from]; [by rewrite Hall|].
  destruct (Z.ltb_spec (find s sep 0) 0); [by rewrite Hall | lia].
Qed.

Lemma join_split s sep : sep ≠ [] → join sep (split s sep) = s.
Proof.
  intros Hsep. unfold split.
  rewrite join_split_from by (try done; unfold len; lia). apply drop_0.
Qed.

Lemma split_pieces s sep :
  sep ≠ [] → Forall (λ piece, contains sep piece = false) (split s sep).
Proof.
  intros Hsep. apply split_from_pieces; [done | lia | unfold len; lia].
Qed.

(** ** The container scan *)

Lemma div_open_nonempty : str "<div" ≠ [].
Proof. done. Qed.

Lemma div_close_nonempty : str "</div>" ≠ [].
Proof. done. Qed.

(** The fuel [find_container_end] gives is enough: the loop ends. *)
Lemma scan_enough_fuel fuel slide_html div_count pos :
  0 ≤ pos → (0 < fuel)%nat → len slide_html - pos < Z.of_nat fuel →
  is_Some (scan fuel slide_html div_count pos).
Proof.
  revert div_count pos. induction fuel as [|fuel IH];
    intros dc pos Hpos Hfuel0 Hfuel; [lia|].
  cbn [scan]. destruct (Z.ltb_spec pos (len slide_html)) as [Hlt|Hge]; [|by eauto].
  destruct (Z.ltb_spec (find slide_html "</div>" pos) 0) as [Hc|Hc]; [by eauto|].
  destruct (Z.leb_spec 0 (find slide_html "<div" pos)) as [Ho|Ho]; cbn [andb].
  - destruct (Z.ltb_spec (find slide_html "<div" pos) (find slide_html "</div>" pos)).
    + pose proof (find_nonneg _ _ _ Hpos div_open_nonempty Ho) as [? _].
      apply IH; try lia; unfold len in *; lia.
    + destruct (dc =? 0); [by eauto|].
      pose proof (find_nonneg _ _ _ Hpos div_close_nonempty Hc) as [? _].
      apply IH; try lia; unfold len in *; lia.
  - destruct (dc =? 0); [by eauto|].
    pose proof (find_nonneg _ _ _ Hpos div_close_nonempty Hc) as [? _].
    apply IH; try lia; unfold len in *; lia.
Qed.

(** More fuel does not change a result. *)
Lemma scan_fuel_mono fuel fuel' slide_html div_count pos e :
  (fuel ≤ fuel')%nat →
  scan fuel slide_html div_count pos = Some e →
  scan fuel' slide_html div_count pos = Some e.
Proof.
  revert fuel' div_count pos. induction fuel as [|fuel IH];
    intros fuel' dc pos Hle; [done|].
  destruct fuel' as [|fuel']; [lia|]. cbn [scan].
  repeat case_match; try done; apply IH; lia.
Qed.

(** A container end that is found is the end of an occurrence of [</div>]
    at or after the cursor. *)
Lemma scan_found fuel slide_html div_count pos e :
  0 ≤ pos → scan fuel slide_html div_count pos = Some e → 0 ≤ e →
  ∃ next_close, pos ≤ next_close ∧ e = next_close + 6 ∧
    next_close + 6 ≤ len slide_html ∧
    occurs slide_html "</div>" (Z.to_nat next_close).
Proof.
  revert div_count pos. induction fuel as [|fuel IH]; intros dc pos Hpos; [done|].
  cbn [scan]. destruct (Z.ltb_spec pos (len slide_html)) as [Hlt|Hge];
    [|intros [= <-]; lia].
  destruct (Z.ltb_spec (find slide_html "</div>" pos) 0) as [Hc|Hc];
    [intros [= <-]; lia|].
  pose proof (find_nonneg _ _ _ Hpos div_close_nonempty Hc) as (Hc1 & Hc2 & Hc3 & _).
  assert (∀ dc', scan fuel slide_html dc' (find slide_html "</div>" pos + 6) = Some e →
            0 ≤ e → ∃ next_close, pos ≤ next_close ∧ e = next_close + 6 ∧
              next_close + 6 ≤ len slide_html ∧
              occurs slide_html "</div>" (Z.to_nat next_close)) as Hclose.
  { intros dc' Hs He. apply IH in Hs as (nc & ? & ? & ? & ?); [|lia|done].
    exists nc. repeat split; [lia | done..]. }
  destruct (Z.leb_spec 0 (find slide_html "<div" pos)) as [Ho|Ho]; cbn [andb].
  - destruct (Z.ltb_spec (find slide_html "<div" pos) (find slide_html "</div>" pos)).
    + pose proof (find_nonneg _ _ _ Hpos div_open_nonempty Ho) as [? _].
      intros Hs He. apply IH in Hs as (nc & ? & ? & ? & ?); [|lia|done].
      exists nc. repeat split; [lia | done..].
    + destruct (dc =? 0); [|by apply Hclose].
      intros [= <-] _. eexists. repeat split; [done | done | done].
  - destruct (dc =? 0); [|by apply Hclose].
    intros [= <-] _. eexists. repeat split; [done | done | done].
Qed.

Lemma find_container_end_scan slide_html container_start :
  0 ≤ container_start →
  scan (S (length slide_html)) slide_html 0 container_start
  = Some (find_container_end slide_html container_start).
Proof.
  intros Hcs. unfold find_container_end.
  destruct (scan_enough_fuel (S (length slide_html)) slide_html 0 container_start)
    as [e ->]; [done | lia | unfold len; lia | done].
Qed.

Lemma find_container_end_found slide_html container_start :
  0 ≤ container_start →
  container_start < find_container_end slide_html container_start →
  ∃ next_close, container_start ≤ next_close ∧
    find_container_end slide_html container_start = next_close + 6 ∧
    next_close + 6 ≤ len slide_html ∧
    occurs slide_html "</div>" (Z.to_nat next_close).
Proof.
  intros Hcs Hlt.
  apply (scan_found (S (length slide_html)) slide_html 0); [done | | lia].
  by apply find_container_end_scan.
Qed.

(** ** Tags *)

Lemma tags_open x : tags (str "<div" ++ x) = true :: tags x.
Proof. reflexivity. Qed.

Lemma tags_close x : tags (str "</div>" ++ x) = false :: tags x.
Proof. reflexivity. Qed.

Lemma occurs_cons c s sub p : occurs (c :: s) sub (S p) ↔ occurs s sub p.
Proof. done. Qed.

Lemma occurs_drop s sub pos p :
  occurs (drop pos s) sub p ↔ occurs s sub (pos + p).
Proof. unfold occurs. by rewrite drop_drop. Qed.

(** Where no tag starts, [tags] passes over. *)
Lemma tags_skip s n :
  (∀ p, (p < n)%nat → ¬ occurs s "<div" p ∧ ¬ occurs s "</div>" p) →
  tags s = tags (drop n s).
Proof.
  revert s. induction n as [|n IH]; intros s Hnone; [done|].
  destruct s as [|c s]; [done|].
  destruct (Hnone 0%nat ltac:(lia)) as [Ho Hc]. unfold occurs in Ho, Hc.
  rewrite drop_0 in Ho, Hc. cbn [tags drop].
  destruct (startswith "<div" (c :: s)); [done|].
  destruct (startswith "</div>" (c :: s)); [done|].
  apply IH. intros p Hp. destruct (Hnone (S p) ltac:(lia)) as [H1 H2].
  by rewrite !occurs_cons in H1, H2.
Qed.

(** The tags of a text from [pos] whose first tag [tok] stands at [q], and
    of its prefixes that hold this tag. *)
Lemma tags_step s pos q tok b m :
  tok ≠ [] → (∀ x, tags (tok ++ x) = b :: tags x) →
  (pos ≤ q)%nat →
  (∀ p, (pos ≤ p < q)%nat → ¬ occurs s "<div" p ∧ ¬ occurs s "</div>" p) →
  occurs s tok q →
  (q + length tok ≤ pos + m)%nat →
  tags (drop pos s) = b :: tags (drop (q + length tok) s)
  ∧ tags (take m (drop pos s))
    = b :: tags (take (m - (q - pos) - length tok) (drop (q + length tok) s)).
Proof.
  intros Htok Htags Hle Hnone Hocc Hm.
  pose proof (occurs_bound _ _ _ Htok Hocc) as Hb.
  assert (drop (q - pos) (drop pos s)
          = tok ++ drop (q + length tok) s) as Hdrop.
  { rewrite drop_drop. replace (pos + (q - pos))%nat with q by lia.
    apply occurs_split in Hocc as [t Ht]. rewrite <- drop_drop, Ht.
    by rewrite drop_app_length. }
  split.
  - rewrite (tags_skip (drop pos s) (q - pos)).
    + by rewrite Hdrop, Htags.
    + intros p Hp. rewrite !occurs_drop. apply Hnone. lia.
  - rewrite (tags_skip (take m (drop pos s)) (q - pos)).
    + replace (drop (q - pos) (take m (drop pos s)))
        with (take (m - (q - pos)) (drop (q - pos) (drop pos s))).
      2:{ rewrite take_drop_commute. do 2 f_equal. lia. }
      rewrite Hdrop, take_app_ge by lia. by rewrite Htags.
    + intros p Hp. destruct (Hnone (pos + p)%nat ltac:(lia)) as [H1 H2].
      split; intros Hocc'.
      * apply occurs_take in Hocc' as [Hocc' _]; [|done].
        by apply occurs_drop in Hocc'.
      * apply occurs_take in Hocc' as [Hocc' _]; [|done].
        by apply occurs_drop in Hocc'.
Qed.

(** The balance of the tags up to the terminator. *)
Lemma terminator_balance ts div_count n :
  terminator ts div_count = Some n →
  Z.of_nat (closing_tags (take n ts))
  = Z.of_nat (opening_tags (take n ts)) + div_count + 1.
Proof.
  unfold closing_tags, opening_tags.
  revert div_count n. induction ts as [|[] ts IH]; intros d n; simpl; [done|..].
  - destruct (terminator ts (d + 1)) as [n'|] eqn:E; [|done].
    intros [= <-]. cbn [take]. rewrite filter_cons_False by done.
    rewrite filter_cons_True by done. cbn [length]. specialize (IH _ _ E). lia.
  - destruct (Z.eqb_spec d 0) as [->|Hd].
    + intros [= <-]. by vm_compute.
    + destruct (terminator ts (d - 1)) as [n'|] eqn:E; [|done].
      intros [= <-]. cbn [take]. rewrite filter_cons_True by done.
      rewrite filter_cons_False by done. cbn [length]. specialize (IH _ _ E). lia.
Qed.

(** The depth of a left-to-right scan of the tags up to the terminator
    ends one below the start of the count. *)
Lemma terminator_depth ts div_count n :
  terminator ts div_count = Some n →
  last (depths div_count (take n ts)) = Some (-1).
Proof.
  revert div_count n. induction ts as [|[] ts IH]; intros d n; simpl; [done|..].
  - destruct (terminator ts (d + 1)) as [n'|] eqn:E; [|done].
    intros [= <-]. simpl. specialize (IH _ _ E).
    destruct (depths (d + 1) (take n' ts)); [done | done].
  - destruct (Z.eqb_spec d 0) as [->|Hd].
    + intros [= <-]. by vm_compute.
    + destruct (terminator ts (d - 1)) as [n'|] eqn:E; [|done].
      intros [= <-]. simpl. specialize (IH _ _ E).
      destruct (depths (d - 1) (take n' ts)); [done | done].
Qed.

Lemma tags_no_close s :
  (∀ p, ¬ occurs s "</div>" p) → false ∉ tags s.
Proof.
  induction s as [|c s IH]; intros Hnone; [by intros ?%elem_of_nil|].
  assert (false ∉ tags s) as Hrest.
  { apply IH. intros p Hp. by apply (Hnone (S p)). }
  cbn [tags]. destruct (startswith "<div" (c :: s)).
  { by intros [?|?]%elem_of_cons. }
  destruct (startswith "</div>" (c :: s)) eqn:E; [|done].
  by destruct (Hnone 0%nat).
Qed.

Lemma terminator_all_open ts div_count :
  false ∉ ts → terminator ts div_count = None.
Proof.
  revert div_count. induction ts as [|[] ts IH]; intros d Hout; simpl; [done|..].
  - rewrite IH; [done|]. intros ?. apply Hout. by right.
  - destruct Hout. by left.
Qed.

(** The scan of the source and the scan of the tag sequence agree: no
    container end exactly when the tags have no terminator, and a container
    end that is found cuts the text right after the terminator. *)
Lemma scan_tags fuel slide_html div_count pos e :
  0 ≤ pos → scan fuel slide_html div_count pos = Some e →
  (e = -1 ∧ terminator (tags (drop (Z.to_nat pos) slide_html)) div_count = None)
  ∨ (0 ≤ e ∧ ∃ n,
       terminator (tags (drop (Z.to_nat pos) slide_html)) div_count = Some n
       ∧ tags (take (Z.to_nat (e - pos)) (drop (Z.to_nat pos) slide_html))
         = take n (tags (drop (Z.to_nat pos) slide_html))).
Proof.
  revert div_count pos. induction fuel as [|fuel IH]; intros dc pos Hpos; [done|].
  cbn [scan]. destruct (Z.ltb_spec pos (len slide_html)) as [Hlt|Hge].
  2:{ intros [= <-]. left. split; [done|].
      by rewrite drop_ge by (unfold len in *; lia). }
  set (next_open := find slide_html "<div" pos).
  set (next_close := find slide_html "</div>" pos).
  destruct (Z.ltb_spec next_close 0) as [Hc|Hc].
  { intros [= <-]. left. split; [done|].
    apply terminator_all_open, tags_no_close. intros p. rewrite occurs_drop.
    apply (find_neg _ _ _ Hpos div_close_nonempty Hc). lia. }
  destruct (find_nonneg _ _ _ Hpos div_close_nonempty Hc)
    as (Hc1 & Hc2 & Hc3 & Hc4).
  fold next_close in Hc1, Hc2, Hc3, Hc4.
  assert (∀ (q k : Z) tok b dc',
    tok ≠ [] → k = Z.of_nat (length tok) →
    (∀ x, tags (tok ++ x) = b :: tags x) → pos ≤ q →
    (∀ p, (Z.to_nat pos ≤ p < Z.to_nat q)%nat →
          ¬ occurs slide_html "<div" p ∧ ¬ occurs slide_html "</div>" p) →
    occurs slide_html tok (Z.to_nat q) →
    (∀ ts, terminator (b :: ts) dc = S <$> terminator ts dc') →
    scan fuel slide_html dc' (q + k) = Some e →
    (e = -1 ∧ terminator (tags (drop (Z.to_nat pos) slide_html)) dc = None)
    ∨ (0 ≤ e ∧ ∃ n,
         terminator (tags (drop (Z.to_nat pos) slide_html)) dc = Some n
         ∧ tags (take (Z.to_nat (e - pos)) (drop (Z.to_nat pos) slide_html))
           = take n (tags (drop (Z.to_nat pos) slide_html)))) as Hstep.
  { intros q k tok b dc' Htok -> Htags Hq Hnone Hocc Hterm Hscan.
    assert (0 ≤ q + Z.of_nat (length tok)) as Hpos' by lia.
    destruct (IH _ _ Hpos' Hscan) as [[-> Hnoterm]|(He & n & Hn & Hcut)].
    - left. split; [done|].
      destruct (tags_step slide_html (Z.to_nat pos) (Z.to_nat q) tok b
                  (Z.to_nat q - Z.to_nat pos + length tok)
                  Htok Htags ltac:(lia) Hnone Hocc ltac:(lia)) as [-> _].
      rewrite Hterm.
      replace (Z.to_nat q + length tok)%nat
        with (Z.to_nat (q + Z.of_nat (length tok))) by lia.
      by rewrite Hnoterm.
    - right. split; [done|].
      destruct (scan_found _ _ _ _ _ Hpos' Hscan He) as (nc & Hnc & -> & _).
      destruct (tags_step slide_html (Z.to_nat pos) (Z.to_nat q) tok b
                  (Z.to_nat (nc + 6 - pos))
                  Htok Htags ltac:(lia) Hnone Hocc ltac:(lia)) as [-> ->].
      replace (Z.to_nat q + length tok)%nat
        with (Z.to_nat (q + Z.of_nat (length tok))) by lia.
      replace (Z.to_nat (nc + 6 - pos) - (Z.to_nat q - Z.to_nat pos)
               - length tok)%nat
        with (Z.to_nat (nc + 6 - (q + Z.of_nat (length tok)))) by lia.
      rewrite Hterm, Hn, Hcut. by exists (S n). }
  destruct (Z.leb_spec 0 next_open) as [Ho|Ho]; cbn [andb].
  - destruct (find_nonneg _ _ _ Hpos div_open_nonempty Ho)
      as (Ho1 & Ho2 & Ho3 & Ho4).
    fold next_open in Ho1, Ho2, Ho3, Ho4.
    destruct (Z.ltb_spec next_open next_close) as [Hlt'|Hge'].
    + apply (Hstep next_open 4 (str "<div") true); try done.
      intros p Hp. split; [by apply Ho4 | apply Hc4; lia].
    + assert (∀ p, (Z.to_nat pos ≤ p < Z.to_nat next_close)%nat →
                ¬ occurs slide_html "<div" p ∧ ¬ occurs slide_html "</div>" p)
        as Hnone.
      { intros p Hp. split; [apply Ho4; lia | by apply Hc4]. }
      destruct (Z.eqb_spec dc 0) as [->|Hdc].
      * intros [= <-]. right. split; [lia|]. exists 1%nat.
        destruct (tags_step slide_html (Z.to_nat pos) (Z.to_nat next_close)
                    (str "</div>") false (Z.to_nat (next_close + 6 - pos))
                    div_close_nonempty tags_close ltac:(lia) Hnone Hc3)
          as [-> ->].
        { change (length (str "</div>")) with 6%nat. lia. }
        split; [done|].
        replace (Z.to_nat (next_close + 6 - pos)
                 - (Z.to_nat next_close - Z.to_nat pos)
                 - length (str "</div>"))%nat with 0%nat
          by (change (length (str "</div>")) with 6%nat; lia).
        done.
      * apply (Hstep next_close 6 (str "</div>") false); try done.
        intros ts. cbn [terminator]. by destruct (Z.eqb_spec dc 0).
  - assert (∀ p, (Z.to_nat pos ≤ p < Z.to_nat next_close)%nat →
              ¬ occurs slide_html "<div" p ∧ ¬ occurs slide_html "</div>" p)
      as Hnone.
    { intros p Hp. split; [|by apply Hc4].
      apply (find_neg _ _ _ Hpos div_open_nonempty Ho). lia. }
    destruct (Z.eqb_spec dc 0) as [->|Hdc].
    + intros [= <-]. right. split; [lia|]. exists 1%nat.
      destruct (tags_step slide_html (Z.to_nat pos) (Z.to_nat next_close)
                  (str "</div>") false (Z.to_nat (next_close + 6 - pos))
                  div_close_nonempty tags_close ltac:(lia) Hnone Hc3)
        as [-> ->].
      { change (length (str "</div>")) with 6%nat. lia. }
      split; [done|].
      replace (Z.to_nat (next_close + 6 - pos)
               - (Z.to_nat next_close - Z.to_nat pos)
               - length (str "</div>"))%nat with 0%nat
        by (change (length (str "</div>")) with 6%nat; lia).
      done.
    + apply (Hstep next_close 6 (str "</div>") false); try done.
      intros ts. cbn [terminator]. by destruct (Z.eqb_spec dc 0).
Qed.

(** ** Fragments *)

Lemma container_marker_length : length container_marker = 27%nat.
Proof. by vm_compute. Qed.

Lemma container_marker_nonempty : container_marker ≠ [].
Proof. done. Qed.

(** Inside the marker the character [<] stands at its start only. *)
Lemma container_marker_lt d :
  container_marker !! d = Some "<"%char → d = 0%nat.
Proof.
  do 27 (destruct d as [|d]; [by vm_compute|]). by vm_compute.
Qed.

(** A closing tag at or after an occurrence of the marker lies after the
    whole marker. *)
Lemma marker_before_close s cs nc :
  occurs s container_marker cs → occurs s "</div>" nc →
  (cs ≤ nc)%nat → (cs + 27 ≤ nc)%nat.
Proof.
  intros Hm Hc Hle. destruct (decide (cs + 27 ≤ nc)%nat) as [|Hlt]; [done|].
  exfalso. set (d := (nc - cs)%nat).
  destruct (lookup_lt_is_Some_2 container_marker d) as [c Hd].
  { rewrite container_marker_length. lia. }
  pose proof (occurs_lookup _ _ _ _ _ Hm Hd) as H1.
  pose proof (occurs_lookup _ _ _ 0%nat "<"%char Hc eq_refl) as H2.
  replace (cs + d)%nat with nc in H1 by lia.
  rewrite Nat.add_0_r in H2. rewrite H2 in H1. injection H1 as <-.
  apply container_marker_lt in Hd.
  pose proof (occurs_lookup _ _ _ 1%nat "d"%char Hm eq_refl) as H3.
  pose proof (occurs_lookup _ _ _ 1%nat "/"%char Hc eq_refl) as H4.
  replace nc with cs in H4 by lia. rewrite H3 in H4. discriminate.
Qed.

(** The slice the scan selects: the marker, a body, a closing tag. *)
Lemma container_slice_shape slide_html container_start :
  0 ≤ container_start →
  occurs slide_html container_marker (Z.to_nat container_start) →
  container_start < find_container_end slide_html container_start →
  ∃ body,
    slice slide_html container_start
      (find_container_end slide_html container_start)
    = container_marker ++ body ++ str "</div>".
Proof.
  intros Hcs Hm Hlt.
  destruct (find_container_end_found _ _ Hcs Hlt) as (nc & Hle & -> & Hlen & Hc).
  pose proof (marker_before_close _ _ _ Hm Hc ltac:(lia)) as Hgap.
  rewrite slice_inside by lia.
  replace (Z.to_nat (nc + 6 - container_start))
    with (Z.to_nat nc + length (str "</div>") - Z.to_nat container_start)%nat
    by (change (length (str "</div>")) with 6%nat; lia).
  rewrite (slice_through slide_html _ (Z.to_nat container_start) (Z.to_nat nc)
             ltac:(lia) Hc).
  apply occurs_split in Hm as [t ->].
  rewrite take_app_ge by (rewrite container_marker_length; lia).
  rewrite <- app_assoc. eauto.
Qed.

Lemma strip_container_slice body :
  strip (container_marker ++ body ++ str "</div>")
  = container_marker ++ body ++ str "</div>".
Proof.
  change container_marker with ("<"%char :: drop 1 container_marker).
  change (str "</div>") with (str "</div" ++ [">"%char]).
  rewrite <- app_comm_cons, !app_assoc.
  by apply strip_wrapped.
Qed.

(** ** The container end of the source and of the specification *)

Lemma tags_marker x : tags (container_marker ++ x) = true :: tags x.
Proof. reflexivity. Qed.

Lemma spec_container_end_scan slide_html container_start :
  0 ≤ container_start →
  scan (S (length slide_html)) slide_html 0
    (container_start + len container_marker)
  = Some (spec_container_end slide_html container_start).
Proof.
  intros Hcs. unfold spec_container_end.
  destruct (scan_enough_fuel (S (length slide_html)) slide_html 0
              (container_start + len container_marker)) as [e ->];
    [unfold len; lia | lia | unfold len; lia | done].
Qed.

Lemma terminator_None_succ ts div_count :
  0 ≤ div_count → terminator ts div_count = None →
  terminator ts (div_count + 1) = None.
Proof.
  revert div_count. induction ts as [|[] ts IH]; intros d Hd; simpl; [done|..].
  - destruct (terminator ts (d + 1)) eqn:E; [done|]. intros _.
    by rewrite (IH (d + 1)) by (lia || done).
  - destruct (Z.eqb_spec d 0) as [->|Hne]; [done|].
    destruct (Z.eqb_spec (d + 1) 0); [lia|].
    destruct (terminator ts (d - 1)) eqn:E; [done|]. intros _.
    replace (d + 1 - 1) with (d - 1 + 1) by lia.
    by rewrite (IH (d - 1)) by (lia || done).
Qed.

(** The tags the source's scan works on: the container's own opening tag,
    then the tags after the marker. *)
Lemma tags_from_marker slide_html container_start m :
  occurs slide_html container_marker container_start →
  (container_start + 27 ≤ container_start + m)%nat →
  tags (drop container_start slide_html)
  = true :: tags (drop (container_start + 27) slide_html)
  ∧ tags (take m (drop container_start slide_html))
    = true :: tags (take (m - 27) (drop (container_start + 27) slide_html)).
Proof.
  intros Hm Hlen.
  destruct (tags_step slide_html container_start container_start
              container_marker true m container_marker_nonempty tags_marker
              ltac:(lia) ltac:(lia) Hm) as [H1 H2].
  { rewrite container_marker_length. lia. }
  rewrite container_marker_length in H1, H2.
  split; [done|]. rewrite H2. do 3 f_equal. lia.
Qed.

(** The tags of the slice the source selects: they end with the terminator
    of the count that starts before the container's own opening tag. *)
Lemma container_slice_tags slide_html container_start :
  0 ≤ container_start →
  container_start < find_container_end slide_html container_start →
  ∃ n,
    terminator (tags (drop (Z.to_nat container_start) slide_html)) 0 = Some n
    ∧ tags (slice slide_html container_start
              (find_container_end slide_html container_start))
      = take n (tags (drop (Z.to_nat container_start) slide_html)).
Proof.
  intros Hcs Hlt.
  destruct (find_container_end_found _ _ Hcs Hlt) as (nc & Hle & He & Hlen & _).
  pose proof (find_container_end_scan slide_html container_start Hcs) as Hscan.
  destruct (scan_tags _ _ _ _ _ Hcs Hscan) as [[? _]|(_ & n & Hn & Hcut)]; [lia|].
  exists n. split; [done|]. by rewrite slice_inside by lia.
Qed.

(** Every slice the source selects holds one closing tag more than opening
    tags, and the depth of its left-to-right scan ends at [-1]. *)
Lemma container_slice_unbalanced slide_html container_start :
  0 ≤ container_start →
  container_start < find_container_end slide_html container_start →
  let fragment := slice slide_html container_start
                    (find_container_end slide_html container_start) in
  closing_tags (tags fragment) = S (opening_tags (tags fragment))
  ∧ last (depths 0 (tags fragment)) = Some (-1).
Proof.
  intros Hcs Hlt fragment.
  destruct (container_slice_tags _ _ Hcs Hlt) as (n & Hn & Htags).
  unfold fragment. rewrite Htags. split.
  - pose proof (terminator_balance _ _ _ Hn). lia.
  - by apply terminator_depth.
Qed.

(** Where the specification's scan finds the container's own closing tag,
    the source's scan does not end there. *)
Lemma container_end_misses_own_close slide_html container_start :
  0 ≤ container_start →
  occurs slide_html container_marker (Z.to_nat container_start) →
  0 ≤ spec_container_end slide_html container_start →
  find_container_end slide_html container_start
  ≠ spec_container_end slide_html container_start.
Proof.
  intros Hcs Hm Hspec Heq.
  pose proof (spec_container_end_scan slide_html container_start Hcs) as Hs.
  assert (0 ≤ container_start + len container_marker) as Hpos'
    by (unfold len; lia).
  destruct (scan_found _ _ _ _ _ Hpos' Hs Hspec) as (nc & Hnc & He & _).
  destruct (scan_tags _ _ _ _ _ Hpos' Hs)
    as [[? _]|(_ & n' & Hn' & Hcut')]; [lia|].
  pose proof (find_container_end_scan slide_html container_start Hcs) as Hc.
  destruct (scan_tags _ _ _ _ _ Hcs Hc) as [[? _]|(_ & n & Hn & Hcut)]; [lia|].
  rewrite Heq in Hcut.
  change (len container_marker) with 27 in *.
  destruct (tags_from_marker slide_html (Z.to_nat container_start)
              (Z.to_nat (spec_container_end slide_html container_start
                         - container_start)) Hm ltac:(lia)) as [_ Hfrag].
  replace (Z.to_nat container_start + 27)%nat
    with (Z.to_nat (container_start + 27)) in Hfrag by lia.
  replace (Z.to_nat (spec_container_end slide_html container_start
                     - container_start) - 27)%nat
    with (Z.to_nat (spec_container_end slide_html container_start
                    - (container_start + 27))) in Hfrag by lia.
  rewrite Hcut' in Hfrag.
  pose proof (terminator_balance _ _ _ Hn) as Hb.
  pose proof (terminator_balance _ _ _ Hn') as Hb'.
  rewrite <- Hcut, Hfrag in Hb. unfold closing_tags, opening_tags in *.
  rewrite filter_cons_False in Hb by done.
  rewrite filter_cons_True in Hb by done. simpl in Hb. lia.
Qed.

(** A container that is never closed (the specification's scan finds no
    closing tag for it) is not found closed by the source either. *)
Lemma unclosed_container_not_found slide_html container_start :
  0 ≤ container_start →
  occurs slide_html container_marker (Z.to_nat container_start) →
  spec_container_end slide_html container_start = -1 →
  find_container_end slide_html container_start = -1.
Proof.
  intros Hcs Hm Hspec.
  pose proof (spec_container_end_scan slide_html container_start Hcs) as Hs.
  assert (0 ≤ container_start + len container_marker) as Hpos'
    by (unfold len; lia).
  destruct (scan_tags _ _ _ _ _ Hpos' Hs) as [[_ Hnone]|[? _]]; [|lia].
  pose proof (find_container_end_scan slide_html container_start Hcs) as Hc.
  destruct (scan_tags _ _ _ _ _ Hcs Hc) as [[? _]|(_ & n & Hn & _)]; [done|].
  exfalso.
  destruct (tags_from_marker slide_html (Z.to_nat container_start) 27 Hm
              ltac:(lia)) as [Htags _].
  rewrite Htags in Hn. cbn [terminator] in Hn.
  change (len container_marker) with 27 in Hnone.
  replace (Z.to_nat container_start + 27)%nat
    with (Z.to_nat (container_start + 27)) in Hn by lia.
  apply terminator_None_succ in Hnone; [|lia].
  simpl in Hnone. by rewrite Hnone in Hn.
Qed.

(** ** The loop over the sections *)

Section ExtractProperties.

Variable charref_sub : pystr → pystr.

Lemma section_step_app slides section :
  section_step charref_sub slides section
  = slides ++ section_step charref_sub [] section.
Proof.
  unfold section_step. repeat case_match; by rewrite ?app_nil_r.
Qed.

Lemma foldl_section_step slides sections :
  foldl (section_step charref_sub) slides sections
  = slides ++ concat (map (section_step charref_sub []) sections).
Proof.
  revert slides. induction sections as [|section sections IH]; intros slides.
  - by rewrite app_nil_r.
  - simpl. rewrite IH, (section_step_app slides). by rewrite <- app_assoc.
Qed.

(** A section whose closing tag is not found leaves [slides] as it is. *)
Lemma section_step_not_found slides section :
  find_container_end (unescape charref_sub section)
    (find (unescape charref_sub section) container_marker 0) = -1 →
  section_step charref_sub slides section = slides.
Proof.
  intros Hend. unfold section_step. rewrite Hend.
  repeat case_match; try done. lia.
Qed.

(** A section without the marker [slide-container] leaves [slides] as it
    is. *)
Lemma section_step_no_marker slides section :
  contains "slide-container" section = false →
  section_step charref_sub slides section = slides.
Proof. intros H. unfold section_step. by rewrite H. Qed.

(** Every fragment is a slice of the unescaped section that starts at the
    marker and ends where the scan ends. *)
Lemma section_step_slice section frag :
  frag ∈ section_step charref_sub [] section →
  let slide_html := unescape charref_sub section in
  let container_start := find slide_html container_marker 0 in
  0 ≤ container_start
  ∧ occurs slide_html container_marker (Z.to_nat container_start)
  ∧ container_start < find_container_end slide_html container_start
  ∧ frag = slice slide_html container_start
             (find_container_end slide_html container_start).
Proof.
  unfold section_step.
  destruct (contains "slide-container" section); simpl; [|by intros ?%elem_of_nil].
  set (slide_html := unescape charref_sub section).
  set (container_start := find slide_html container_marker 0).
  destruct (Z.ltb_spec container_start 0) as [|Hcs]; [by intros ?%elem_of_nil|].
  destruct (Z.ltb_spec container_start
              (find_container_end slide_html container_start)) as [Hlt|];
    [|by intros ?%elem_of_nil].
  intros ->%list_elem_of_singleton.
  destruct (find_nonneg slide_html container_marker 0 ltac:(lia)
              container_marker_nonempty Hcs) as (_ & _ & Hm & _).
  repeat split; [done..|].
  destruct (container_slice_shape slide_html container_start Hcs Hm Hlt)
    as [body ->].
  apply strip_container_slice.
Qed.

(** Every fragment is the marker, a body and a closing tag. *)
Lemma section_step_fragment section frag :
  frag ∈ section_step charref_sub [] section →
  ∃ body, frag = container_marker ++ body ++ str "</div>".
Proof.
  intros (Hcs & Hm & Hlt & ->)%section_step_slice.
  by apply container_slice_shape.
Qed.

(** Every fragment holds one closing tag more than opening tags. *)
Lemma section_step_unbalanced section frag :
  frag ∈ section_step charref_sub [] section →
  closing_tags (tags frag) = S (opening_tags (tags frag))
  ∧ last (depths 0 (tags frag)) = Some (-1).
Proof.
  intros (Hcs & Hm & Hlt & ->)%section_step_slice.
  by apply container_slice_unbalanced.
Qed.

Lemma slides_of_section content frag :
  frag ∈ slides_of charref_sub content →
  ∃ section, frag ∈ section_step charref_sub [] section.
Proof.
  unfold slides_of. rewrite foldl_section_step. simpl.
  intros Hin. apply list_elem_of_In, in_concat in Hin as (l & Hl & Hfrag).
  apply in_map_iff in Hl as (section & <- & _).
  exists section. by apply list_elem_of_In.
Qed.

Lemma slides_of_fragment content frag :
  frag ∈ slides_of charref_sub content →
  ∃ body, frag = container_marker ++ body ++ str "</div>".
Proof.
  intros [section Hin]%slides_of_section. by apply (section_step_fragment section).
Qed.

(** Every fragment the extractor returns is unbalanced by one closing
    tag. *)
Lemma slides_of_unbalanced content frag :
  frag ∈ slides_of charref_sub content →
  closing_tags (tags frag) = S (opening_tags (tags frag))
  ∧ last (depths 0 (tags frag)) = Some (-1).
Proof.
  intros [section Hin]%slides_of_section.
  by apply (section_step_unbalanced section).
Qed.

End ExtractProperties.

(** ** The style deduplicator *)

Lemma keep_first_elem t l : t ∈ keep_first l ↔ t ∈ l.
Proof.
  induction l as [|x l IH]; simpl; [done|].
  rewrite !elem_of_cons, list_elem_of_filter, IH.
  destruct (decide (t = x)); naive_solver.
Qed.

Lemma keep_first_NoDup l : NoDup (keep_first l).
Proof.
  induction l as [|x l IH]; simpl; [constructor|].
  apply NoDup_cons. split.
  - rewrite list_elem_of_filter. naive_solver.
  - by apply NoDup_filter.
Qed.

Lemma filter_all {A} (P : A → Prop) `{∀ x, Decision (P x)} (l : list A) :
  Forall P l → filter P l = l.
Proof.
  induction 1 as [|x l Hx _ IH]; [done|].
  rewrite filter_cons_True by done. by rewrite IH.
Qed.

Lemma filter_none {A} (P : A → Prop) `{∀ x, Decision (P x)} (l : list A) :
  Forall (λ x, ¬ P x) l → filter P l = [].
Proof.
  induction 1 as [|x l Hx _ IH]; [done|].
  by rewrite filter_cons_False.
Qed.

Lemma keep_first_of_NoDup l : NoDup l → keep_first l = l.
Proof.
  induction 1 as [|x l Hx _ IH]; simpl; [done|].
  rewrite IH. f_equal. apply filter_all, Forall_forall. by intros y Hy ->.
Qed.

(** The loop computes the specification's sequence, started from any
    state. *)
Lemma dedup_loop_spec style_matches seen_styles unique_styles :
  snd (dedup_loop style_matches seen_styles unique_styles)
  = unique_styles
    ++ filter (λ x, x ∉ seen_styles) (unique_styles_spec style_matches).
Proof.
  unfold unique_styles_spec.
  revert seen_styles unique_styles.
  induction style_matches as [|style rest IH]; intros seen acc; simpl.
  { by rewrite app_nil_r. }
  destruct (Z.ltb_spec 100 (len style)) as [Hlong|Hshort].
  - rewrite filter_cons_True by done. simpl.
    destruct (bool_decide_reflect (style ∉ seen)) as [Hnew|Hold]; simpl.
    + rewrite IH, <- app_assoc. f_equal. simpl.
      rewrite filter_cons_True by done. f_equal.
      rewrite list_filter_filter. apply list_filter_iff. set_solver.
    + rewrite IH. f_equal. rewrite filter_cons_False by done.
      rewrite list_filter_filter. apply list_filter_iff.
      intros y. split; [|naive_solver]. intros Hy. split; [done|].
      intros ->. by apply Hold.
  - rewrite andb_false_r.
    rewrite filter_cons_False by (unfold substantial; lia). apply IH.
Qed.

Lemma dedup_spec style_matches :
  dedup style_matches = unique_styles_spec style_matches.
Proof.
  unfold dedup. rewrite dedup_loop_spec. simpl.
  apply filter_all, Forall_forall. set_solver.
Qed.

Lemma dedup_elem t style_matches :
  t ∈ dedup style_matches ↔ t ∈ style_matches ∧ 100 < len t.
Proof.
  rewrite dedup_spec. unfold unique_styles_spec.
  by rewrite keep_first_elem, list_elem_of_filter, (comm and).
Qed.

Lemma dedup_NoDup style_matches : NoDup (dedup style_matches).
Proof. rewrite dedup_spec. apply keep_first_NoDup. Qed.

Lemma dedup_idempotent style_matches :
  dedup (dedup style_matches) = dedup style_matches.
Proof.
  rewrite (dedup_spec (dedup style_matches)). unfold unique_styles_spec.
  rewrite filter_all.
  - apply keep_first_of_NoDup, dedup_NoDup.
  - apply Forall_forall. by intros t [_ Ht]%dedup_elem.
Qed.

Lemma appearances_NoDup t l : NoDup l → t ∈ l → appearances t l = 1%nat.
Proof.
  unfold appearances. induction 1 as [|x l Hx Hnd IH]; intros Hin.
  { by apply elem_of_nil in Hin. }
  destruct (decide (x = t)) as [->|Hne].
  - rewrite filter_cons_True by done. simpl. f_equal.
    rewrite filter_none; [done|]. apply Forall_forall. by intros y Hy ->.
  - rewrite filter_cons_False by done. apply IH.
    apply elem_of_cons in Hin as [?|?]; [done | done].
Qed.

Lemma appearances_absent t l : t ∉ l → appearances t l = 0%nat.
Proof.
  intros Hout. unfold appearances.
  rewrite filter_none; [done|]. apply Forall_forall. by intros y Hy ->.
Qed.

(** ** The loop over the sections with its exceptions *)

Section ExtractionProperties.

Variable charref_sub : pystr → pystr.
Variable charref_raises : pystr → bool.



(** The loop returns when [html.unescape] returns on every section it is
    called on. *)
Lemma extraction_loop_returns slides sections :
  Forall (λ section, contains "slide-container" section
                     && unescape_raises charref_raises section = false)
    sections →
  extraction_loop charref_sub charref_raises slides sections
  = Some (foldl (section_step charref_sub) slides sections).
Proof.
  intros Hall. revert slides.
  induction Hall as [|section sections Hsec _ IH]; intros slides;
    cbn [extraction_loop foldl]; [done|].
  by rewrite Hsec.
Qed.

End ExtractionProperties.

(** ** The balanced container extractor *)

Section Claims.

Variable charref_sub : pystr → pystr.
Variable charref_raises : pystr → bool.

(** C1 (the code departs from the claim).  [bare_container] is a balanced
    container element: the marker at offset 0, its own closing tag at
    offsets 30 to 36, where the scan of the specification ends.  The claim
    has the extractor return the text through that closing tag.  The scan of
    the source starts at the marker itself, counts the container's opening
    tag and so passes over its closing tag: for the element alone no
    fragment is returned, and when another closing tag follows, the fragment
    runs through that one.  ([container_end_misses_own_close] shows the same
    for every text.) *)
Theorem own_closing_tag_passed_over :
  find bare_container container_marker 0 = 0
  ∧ tags bare_container = [true; false]
  ∧ find bare_container "</div>" 0 + 6 = len bare_container
  ∧ spec_container_end bare_container 0 = len bare_container
  ∧ find_container_end bare_container 0 = -1
  ∧ section_step charref_sub [] bare_container = []
  ∧ section_step charref_sub [] (bare_container ++ str "</div>")
    = [bare_container ++ str "</div>"].
Proof. by vm_compute. Qed.

(** C2 (the code departs from the claim).  The fragment extracted from a
    wrapped container holds one opening and two closing [div] tags; the
    depth of a left-to-right scan ends at [-1].  ([slides_of_unbalanced]
    shows that every fragment has one closing tag too many.) *)
Theorem fragment_unbalanced :
  slides_of charref_sub (str "<body>" ++ wrapped_container)
  = [bare_container ++ str "</div>"]
  ∧ count (bare_container ++ str "</div>") "<div" = 1%nat
  ∧ count (bare_container ++ str "</div>") "</div>" = 2%nat
  ∧ depths 0 (tags (bare_container ++ str "</div>")) = [1; 0; -1].
Proof. by vm_compute. Qed.

(** C3 (the code departs from the claim).  For a document of two
    body-delimited sections, each holding a balanced slide container with a
    nested [div], the run finds no slide: it prints [Found 0 slides] and the
    output holds no slide wrapper.  Two slides are found only when one more
    closing tag follows each container, and each fragment then ends with
    that tag. *)
Theorem two_sections_no_slide :
  slides_of charref_sub two_slides_document = []
  ∧ stdout (main charref_sub charref_raises
              {[ input_file := TextFile two_slides_document ]})
    = [str "Found 0 slides";
       str "Created slides-export-plagiat.html with 0 slides";
       str "Done!"]
  ∧ count (output_html_of charref_sub two_slides_document)
      (str "<div class=" ++ dq ++ str "slide" ++ dq ++ str ">") = 0%nat
  ∧ slides_of charref_sub two_trailing_closes_document
    = [nested_container (str "A") ++ str "</div>";
       nested_container (str "B") ++ str "</div>"].
Proof. by vm_compute. Qed.

(** C10.  Every slide fragment begins with the marker of the slide
    container: the slice starts at an occurrence of the marker and [strip]
    removes nothing from it. *)
Theorem fragment_starts_with_marker content frag :
  frag ∈ slides_of charref_sub content →
  startswith container_marker frag = true.
Proof.
  intros [body ->]%slides_of_fragment. apply startswith_iff. eauto.
Qed.

(** C4, amended.  Provided [html.unescape] returns on every section it is
    called on, a section whose container is opened and whose closing tag is
    never found adds nothing to [slides], and the loop goes on: it ends with
    the slides of the sections before it followed by those of the sections
    after it, each extracted as on their own. *)
Theorem unterminated_section_skipped content before section after :
  tail (body_splits content) = before ++ section :: after →
  Forall (λ section, contains "slide-container" section
                     && unescape_raises charref_raises section = false)
    (before ++ section :: after) →
  0 ≤ find (unescape charref_sub section) container_marker 0 →
  closing_tag_never_found (unescape charref_sub section)
    (find (unescape charref_sub section) container_marker 0) →
  (∀ slides, section_step charref_sub slides section = slides)
  ∧ extraction charref_sub charref_raises content
    = Some (foldl (section_step charref_sub) [] before
            ++ foldl (section_step charref_sub) [] after)
  ∧ slides_of charref_sub content
    = foldl (section_step charref_sub) [] before
      ++ foldl (section_step charref_sub) [] after.
Proof.
  intros Hsplit Hreturns Hopen Hnever.
  assert (find_container_end (unescape charref_sub section)
            (find (unescape charref_sub section) container_marker 0) = -1)
    as Hend.
  { destruct Hnever as [Hspec|Hend]; [|done].
    apply unclosed_container_not_found; [done | | done].
    by destruct (find_nonneg (unescape charref_sub section) container_marker 0
                   ltac:(lia) container_marker_nonempty Hopen) as (_ & _ & ? & _). }
  assert (∀ slides, section_step charref_sub slides section = slides) as Hskip.
  { intros slides. by apply section_step_not_found. }
  assert (slides_of charref_sub content
          = foldl (section_step charref_sub) [] before
            ++ foldl (section_step charref_sub) [] after) as Hslides.
  { unfold slides_of. rewrite Hsplit, foldl_app. simpl. rewrite Hskip.
    by rewrite (foldl_section_step _ (foldl _ _ before) after),
      (foldl_section_step _ [] after). }
  split; [done|]. split; [|done].
  unfold extraction. rewrite Hsplit.
  rewrite (extraction_loop_returns _ _ _ _ Hreturns).
  rewrite <- Hsplit. by rewrite <- Hslides.
Qed.

Lemma foldl_section_step_filter slides sections :
  foldl (section_step charref_sub) slides sections
  = foldl (section_step charref_sub) slides
      (filter (λ section, contains "slide-container" section = true) sections).
Proof.
  revert slides. induction sections as [|section sections IH]; intros slides;
    [done|].
  destruct (contains "slide-container" section) eqn:E.
  - rewrite filter_cons_True by done. simpl. apply IH.
  - rewrite filter_cons_False by (rewrite E; done). simpl.
    rewrite section_step_no_marker by done. apply IH.
Qed.

(** C5.  The document is cut at every occurrence of the delimiter: joining
    the pieces with the delimiter gives the document back and no piece holds
    the delimiter.  The piece before the first delimiter is left out and
    only sections holding [slide-container] are processed.  Without a
    delimiter there is no section and no slide, and a run over such a file
    prints a count of zero and returns. *)
Theorem section_splitter content :
  join "<body>" (body_splits content) = content
  ∧ Forall (λ piece, contains "<body>" piece = false) (body_splits content)
  ∧ slides_of charref_sub content
    = foldl (section_step charref_sub) []
        (filter (λ section, contains "slide-container" section = true)
           (tail (body_splits content)))
  ∧ (contains "<body>" content = false →
     tail (body_splits content) = []
     ∧ slides_of charref_sub content = []
     ∧ ∀ fs, fs !! input_file = Some (TextFile content) →
             fs !! output_file ≠ Some Directory →
             ended (main charref_sub charref_raises fs) = Returned
             ∧ head (stdout (main charref_sub charref_raises fs))
               = Some (str "Found 0 slides")).
Proof.
  assert (str "<body>" ≠ []) as Hsep by done.
  split; [by apply join_split|]. split; [by apply split_pieces|].
  split; [apply foldl_section_step_filter|].
  intros Hno. unfold slides_of, body_splits.
  rewrite (split_no_sep _ _ Hsep Hno). simpl. split; [done|]. split; [done|].
  intros fs Hin Hout. unfold main, extract_slides.
  rewrite bool_decide_eq_false_2 by congruence. rewrite Hin.
  unfold extraction, body_splits. rewrite (split_no_sep _ _ Hsep Hno). simpl.
  destruct (fs !! output_file) as [[]|]; try done.
Qed.

End Claims.

(** C4, as stated, fails: extraction does not continue after every section
    whose container is opened and never closed.  When such a section also
    holds a decimal character reference of 4301 digits, [html.unescape]
    raises at source line 49, nothing catches it, and the run ends without
    extracting the section that follows, which on its own gives a slide. *)
Lemma oversized_reference_aborts :
  tail (body_splits oversized_reference_document)
  = [oversized_reference_section; wrapped_container]
  ∧ find oversized_reference_section container_marker 0 = 0
  ∧ find oversized_reference_section "</div>" 0 = -1
  ∧ unescape_raises oversized_reference oversized_reference_section = true
  ∧ extraction (λ s, s) oversized_reference oversized_reference_document = None
  ∧ ended (main (λ s, s) oversized_reference
             {[ input_file := TextFile oversized_reference_document ]})
    = Raised
  ∧ stdout (main (λ s, s) oversized_reference
              {[ input_file := TextFile oversized_reference_document ]})
    = []
  ∧ extraction (λ s, s) oversized_reference (str "<body>" ++ wrapped_container)
    = Some [bare_container ++ str "</div>"].
Proof. by vm_compute. Qed.

(** ** The style deduplicator: claims *)

(** C6, as stated, fails: a style block of at most 100 characters that
    occurs twice does not appear once in the output, it does not appear at
    all. *)
Lemma short_repeated_style_dropped :
  style_matches_of short_style_twice = [str "a"; str "a"]
  ∧ appearances (str "a") (unique_styles_of short_style_twice) = 0%nat.
Proof. by vm_compute. Qed.

(** C6, amended.  A style block text that occurs twice in a document
    appears exactly once in the unique-style output when it is longer than
    100 characters, and not at all otherwise.  The output is the
    specification's sequence: the blocks longer than the threshold, each
    distinct text once, in first-seen order; deduplicating it again changes
    nothing. *)
Theorem repeated_style_once content t (i j : nat) :
  i ≠ j →
  style_matches_of content !! i = Some t →
  style_matches_of content !! j = Some t →
  appearances t (unique_styles_of content)
  = (if 100 <? len t then 1%nat else 0%nat)
  ∧ unique_styles_of content = unique_styles_spec (style_matches_of content)
  ∧ dedup (unique_styles_of content) = unique_styles_of content.
Proof.
  intros _ Hi _. unfold unique_styles_of.
  split; [|split; [apply dedup_spec | apply dedup_idempotent]].
  apply list_elem_of_lookup_2 in Hi.
  destruct (Z.ltb_spec 100 (len t)) as [Hlong|Hshort].
  - apply appearances_NoDup; [apply dedup_NoDup | by apply dedup_elem].
  - apply appearances_absent. intros [_ ?]%dedup_elem. lia.
Qed.

(** C7.  A style block of at most 100 characters never appears in the
    unique-style output. *)
Theorem short_style_excluded content t :
  len t ≤ 100 → t ∉ unique_styles_of content.
Proof.
  intros Hshort [_ Hlong]%dedup_elem. lia.
Qed.

(** ** The entry point: claims *)


(** ** Sets *)

Lemma gset_in_new (x : pystr) : gset_mem x ∅ = false.
Proof. by apply bool_decide_eq_false_2, not_elem_of_empty. Qed.

Lemma gset_in_add (x y : pystr) (s : gset pystr) :
  gset_mem x ({[y]} ∪ s) = bool_decide (x = y) || gset_mem x s.
Proof.
  unfold gset_mem. rewrite <- bool_decide_or. apply bool_decide_ext. set_solver.
Qed.

Lemma gset_iter_in (x : pystr) (s : gset pystr) :
  x ∈ elements s ↔ gset_mem x s = true.
Proof. unfold gset_mem. by rewrite elem_of_elements, bool_decide_eq_true. Qed.





(** Python's set with the members kept in a [gset], as [dedup_loop] has
    it. *)
Definition gset_pyset : PySet (gset pystr) := {|
  set_new := ∅;
  set_add x s := {[x]} ∪ s;
  set_in := gset_mem;
  set_iter := elements;
  set_in_new := gset_in_new;
  set_in_add := gset_in_add;
  set_iter_in := gset_iter_in
|}.





Section EntryPoint.

Variable charref_sub : pystr → pystr.



End EntryPoint.

(** ** Instances of the conditional statements *)

Lemma fragment_starts_with_marker_witness :
  startswith container_marker (bare_container ++ str "</div>") = true.
Proof.
  apply (fragment_starts_with_marker (λ s, s) (str "<body>" ++ wrapped_container)).
  vm_compute. apply list_elem_of_here.
Defined.

Lemma unterminated_section_skipped_witness :
  slides_of (λ s, s) unclosed_then_wrapped
  = foldl (section_step (λ s, s)) [] []
    ++ foldl (section_step (λ s, s)) [] [wrapped_container].
Proof.
  apply (unterminated_section_skipped (λ s, s) oversized_reference
           unclosed_then_wrapped [] unclosed_section [wrapped_container]);
    [by vm_compute | by repeat constructor | by vm_compute
    | left; by vm_compute].
Defined.

Lemma section_splitter_witness :
  slides_of (λ s, s) (str "<div>no delimiter</div>") = [].
Proof.
  apply (section_splitter (λ s, s) oversized_reference
           (str "<div>no delimiter</div>")).
  by vm_compute.
Defined.

Lemma repeated_style_once_witness :
  appearances long_style (unique_styles_of long_style_twice) = 1%nat.
Proof.
  apply (repeated_style_once long_style_twice long_style 0 1);
    [lia | by vm_compute | by vm_compute].
Defined.

Lemma short_style_excluded_witness :
  str "a" ∉ unique_styles_of short_style_twice.
Proof.
  apply (short_style_excluded short_style_twice (str "a")). by vm_compute.
Defined.



(** * Further properties of the code *)

(** ** Pieces of a text *)

Lemma occurs_drop_eq s sub q :
  occurs s sub q → drop q s = sub ++ drop (q + length sub) s.
Proof.
  intros [t Ht]%occurs_split. rewrite <- drop_drop, Ht.
  by rewrite drop_app_length.
Qed.

Lemma drop_split_at (s : pystr) p q :
  (p ≤ q)%nat → drop p s = take (q - p) (drop p s) ++ drop q s.
Proof.
  intros Hpq. rewrite <- (take_drop (q - p) (drop p s)) at 1.
  rewrite drop_drop. by replace (p + (q - p))%nat with q by lia.
Qed.

Lemma occurs_char s c p : occurs s [c] p ↔ s !! p = Some c.
Proof.
  unfold occurs. rewrite <- (Nat.add_0_r p) at 2. rewrite <- lookup_drop.
  destruct (drop p s) as [|d t]; simpl; [done|].
  destruct (Ascii.eqb_spec c d); naive_solver.
Qed.

Lemma slice_substring s i j :
  0 ≤ i → i ≤ j → j ≤ len s → substring_of (slice s i j) s.
Proof.
  intros Hi Hij Hj. exists (take (Z.to_nat i) s), (drop (Z.to_nat j) s).
  rewrite slice_inside by lia.
  rewrite <- (take_drop (Z.to_nat i) s) at 1. f_equal.
  replace (Z.to_nat (j - i)) with (Z.to_nat j - Z.to_nat i)%nat by lia.
  apply drop_split_at. lia.
Qed.

(** No character [c] between [p] and [q] when [find] met none. *)
Lemma take_without_char s c p n :
  (∀ k, (p ≤ k < p + n)%nat → ¬ occurs s [c] k) →
  c ∉ take n (drop p s).
Proof.
  intros Hnone [k Hk]%list_elem_of_lookup.
  apply lookup_take_Some in Hk as [Hk Hlt]. rewrite lookup_drop in Hk.
  apply (Hnone (p + k)%nat); [lia|]. by apply occurs_char.
Qed.

(** ** The font faces and the style blocks (source lines 17-25) *)

Lemma findall_font_face_shape fuel content pos m :
  0 ≤ pos → m ∈ findall_font_face fuel content pos →
  (∃ body, m = str "@font-face{" ++ body ++ str "}"
           ∧ body ≠ [] ∧ "}"%char ∉ body)
  ∧ substring_of m content.
Proof.
  revert pos. induction fuel as [|fuel IH]; intros pos Hpos;
    [by intros ?%elem_of_nil|].
  cbn [findall_font_face]. set (i := find content "@font-face{" pos).
  destruct (Z.ltb_spec i 0) as [|Hi]; [by intros ?%elem_of_nil|].
  destruct (find_nonneg content "@font-face{" pos Hpos ltac:(done) Hi)
    as (Hge & Hend & Hocc & _).
  fold i in Hge, Hend, Hocc. change (len (str "@font-face{")) with 11 in Hend.
  set (j := find content "}" (i + 11)).
  destruct (Z.ltb_spec (i + 11) j) as [Hj|Hj]; [|apply IH; lia].
  destruct (find_nonneg content "}" (i + 11) ltac:(lia) ltac:(done) ltac:(fold j; lia))
    as (_ & Hjend & Hjocc & Hjmin).
  fold j in Hjend, Hjocc, Hjmin. change (len (str "}")) with 1 in Hjend.
  intros [->|Hin]%elem_of_cons; [|apply (IH (j + 1)); [lia | done]].
  split; [|apply slice_substring; lia].
  exists (take (Z.to_nat j - Z.to_nat i - 11) (drop (Z.to_nat i + 11) content)).
  split; [|split].
  - rewrite slice_inside by lia.
    replace (Z.to_nat (j + 1 - i))
      with (Z.to_nat j + length (str "}") - Z.to_nat i)%nat
      by (change (length (str "}")) with 1%nat; lia).
    rewrite (slice_through content _ (Z.to_nat i) (Z.to_nat j) ltac:(lia) Hjocc).
    rewrite (occurs_drop_eq _ _ _ Hocc).
    change (length (str "@font-face{")) with 11%nat.
    rewrite take_app_ge by (change (length (str "@font-face{")) with 11%nat; lia).
    change (length (str "@font-face{")) with 11%nat.
    by rewrite <- app_assoc.
  - intros Hnil%(f_equal length). rewrite length_take, length_drop in Hnil.
    simpl in Hnil. unfold len in *. lia.
  - apply take_without_char. intros k Hk. apply Hjmin. lia.
Qed.

Lemma findall_style_shape fuel content pos m :
  0 ≤ pos → m ∈ findall_style fuel content pos →
  contains "</style>" m = false
  ∧ ∃ before attrs after,
      content = before ++ str "<style" ++ attrs ++ str ">" ++ m
                ++ str "</style>" ++ after
      ∧ ">"%char ∉ attrs.
Proof.
  revert pos. induction fuel as [|fuel IH]; intros pos Hpos;
    [by intros ?%elem_of_nil|].
  cbn [findall_style]. set (i := find content "<style" pos).
  destruct (Z.ltb_spec i 0) as [|Hi]; [by intros ?%elem_of_nil|].
  destruct (find_nonneg content "<style" pos Hpos ltac:(done) Hi)
    as (Hge & Hend & Hocc & _).
  fold i in Hge, Hend, Hocc. change (len (str "<style")) with 6 in Hend.
  set (j := find content ">" (i + 6)).
  destruct (Z.leb_spec 0 j) as [Hj|Hj]; cbn [andb]; [|apply IH; lia].
  destruct (find_nonneg content ">" (i + 6) ltac:(lia) ltac:(done) Hj)
    as (Hjge & Hjend & Hjocc & Hjmin).
  fold j in Hjge, Hjend, Hjocc, Hjmin. change (len (str ">")) with 1 in Hjend.
  set (k := find content "</style>" (j + 1)).
  destruct (Z.leb_spec 0 k) as [Hk|Hk]; [|apply IH; lia].
  destruct (find_nonneg content "</style>" (j + 1) ltac:(lia) ltac:(done) Hk)
    as (Hkge & Hkend & Hkocc & Hkmin).
  fold k in Hkge, Hkend, Hkocc, Hkmin.
  change (len (str "</style>")) with 8 in Hkend.
  intros [->|Hin]%elem_of_cons; [|apply (IH (k + 8)); [lia | done]].
  rewrite slice_inside by lia. split.
  - apply contains_false. intros p Hp.
    apply occurs_take in Hp as [Hp Hlen]; [|done].
    apply occurs_drop in Hp. apply (Hkmin (Z.to_nat (j + 1) + p)%nat); [|done].
    change (length (str "</style>")) with 8%nat in Hlen. lia.
  - exists (take (Z.to_nat i) content),
      (take (Z.to_nat j - (Z.to_nat i + 6)) (drop (Z.to_nat i + 6) content)),
      (drop (Z.to_nat k + 8) content).
    split; [|apply take_without_char; intros q Hq; apply Hjmin; lia].
    assert (drop (Z.to_nat i) content
            = str "<style" ++ drop (Z.to_nat i + 6) content) as E1
      by apply (occurs_drop_eq _ _ _ Hocc).
    assert (drop (Z.to_nat i + 6) content
            = take (Z.to_nat j - (Z.to_nat i + 6)) (drop (Z.to_nat i + 6) content)
              ++ drop (Z.to_nat j) content) as E2
      by (apply drop_split_at; lia).
    assert (drop (Z.to_nat j) content
            = str ">" ++ drop (Z.to_nat (j + 1)) content) as E3.
    { replace (Z.to_nat (j + 1)) with (Z.to_nat j + 1)%nat by lia.
      apply (occurs_drop_eq _ _ _ Hjocc). }
    assert (drop (Z.to_nat (j + 1)) content
            = take (Z.to_nat (k - (j + 1))) (drop (Z.to_nat (j + 1)) content)
              ++ drop (Z.to_nat k) content) as E4.
    { replace (Z.to_nat (k - (j + 1)))
        with (Z.to_nat k - Z.to_nat (j + 1))%nat by lia.
      apply drop_split_at. lia. }
    assert (drop (Z.to_nat k) content
            = str "</style>" ++ drop (Z.to_nat k + 8) content) as E5
      by apply (occurs_drop_eq _ _ _ Hkocc).
    rewrite <- (take_drop (Z.to_nat i) content) at 1. f_equal.
    etransitivity; [exact E1|]. f_equal.
    etransitivity; [exact E2|]. f_equal.
    etransitivity; [exact E3|]. f_equal.
    etransitivity; [exact E4|]. f_equal. exact E5.
Qed.

(** X1.  Every font-face rule the program collects is [@font-face{], a
    non-empty body without a closing brace, and [}]; it stands in the
    document as it is. *)
Theorem font_face_shape content m :
  m ∈ font_faces_of content →
  (∃ body, m = str "@font-face{" ++ body ++ str "}"
           ∧ body ≠ [] ∧ "}"%char ∉ body)
  ∧ substring_of m content.
Proof. by apply findall_font_face_shape. Qed.

(** X2.  Every style block the program collects holds no [</style>], and
    stands in the document between an opening tag [<style ...>], whose
    attributes hold no [>], and the closing tag [</style>]. *)
Theorem style_match_shape content m :
  m ∈ style_matches_of content →
  contains "</style>" m = false
  ∧ ∃ before attrs after,
      content = before ++ str "<style" ++ attrs ++ str ">" ++ m
                ++ str "</style>" ++ after
      ∧ ">"%char ∉ attrs.
Proof. by apply findall_style_shape. Qed.

(** ** Sections and slides (source lines 40-91) *)

Lemma split_from_length fuel s sep pos :
  length (split_from fuel s sep pos) = S (count_from fuel s sep pos).
Proof.
  revert pos. induction fuel as [|fuel IH]; intros pos; [done|].
  cbn [split_from count_from]. case_match; [done|]. simpl. by rewrite IH.
Qed.

Lemma split_length s sep :
  sep ≠ [] → length (split s sep) = S (count s sep).
Proof.
  intros Hsep. unfold split, count.
  rewrite <- (split_from_fuel (length s) (S (length s))) by
    (done || lia || (unfold len; lia)).
  apply split_from_length.
Qed.

Lemma concat_length_bound {A} (ls : list (list A)) :
  Forall (λ l, (length l ≤ 1)%nat) ls → (length (concat ls) ≤ length ls)%nat.
Proof.
  induction 1 as [|l ls Hl _ IH]; simpl; [done|].
  rewrite length_app. lia.
Qed.

Section SlideProperties.

Variable charref_sub : pystr → pystr.

Lemma section_step_at_most_one section :
  (length (section_step charref_sub [] section) ≤ 1)%nat.
Proof. unfold section_step. repeat case_match; simpl; lia. Qed.

(** X3.  There are as many candidate sections as occurrences of the
    delimiter [<body>] (counted as [str.count] does), and at most that many
    slides. *)
Theorem slides_bounded_by_delimiters content :
  length (tail (body_splits content)) = count content "<body>"
  ∧ (length (slides_of charref_sub content) ≤ count content "<body>")%nat.
Proof.
  assert (length (tail (body_splits content)) = count content "<body>") as Hn.
  { pose proof (split_length content "<body>" ltac:(done)) as Hl.
    unfold body_splits. destruct (split content "<body>"); simpl in *; lia. }
  split; [done|]. rewrite <- Hn. unfold slides_of.
  rewrite foldl_section_step. simpl.
  etransitivity; [apply concat_length_bound|by rewrite length_map].
  apply Forall_forall. intros l (section & -> & _)%list_elem_of_fmap.
  apply section_step_at_most_one.
Qed.

(** X4.  The slides are collected section by section in document order:
    each section gives its fragment, at most one, whatever was collected
    before it. *)
Theorem slides_in_section_order content :
  slides_of charref_sub content
  = concat (map (section_step charref_sub []) (tail (body_splits content)))
  ∧ (∀ slides section,
       section_step charref_sub slides section
       = slides ++ section_step charref_sub [] section)
  ∧ ∀ section, (length (section_step charref_sub [] section) ≤ 1)%nat.
Proof.
  split; [|split].
  - unfold slides_of. by rewrite foldl_section_step.
  - apply section_step_app.
  - apply section_step_at_most_one.
Qed.

(** ** The output document (source lines 93-179) *)

Lemma foldl_add_slide output_html slides :
  foldl add_slide output_html slides
  = output_html ++ concat (map slide_wrapper slides).
Proof.
  revert output_html. induction slides as [|slide slides IH]; intros acc; simpl.
  - by rewrite app_nil_r.
  - rewrite IH. unfold add_slide, slide_wrapper. by rewrite <- !app_assoc.
Qed.

Lemma substring_of_concat (x : pystr) ls : x ∈ ls → substring_of x (concat ls).
Proof.
  intros (l1 & l2 & ->)%list_elem_of_split.
  exists (concat l1), (concat l2). by rewrite concat_app.
Qed.

Lemma substring_of_join sep (x : pystr) ls : x ∈ ls → substring_of x (join sep ls).
Proof.
  induction ls as [|y ls IH]; [by intros ?%elem_of_nil|].
  destruct ls as [|z ls].
  { intros ->%list_elem_of_singleton. exists [], []. by rewrite app_nil_r. }
  rewrite join_cons by done.
  intros [->|Hin]%elem_of_cons.
  - by exists [], (sep ++ join sep (z :: ls)).
  - destruct (IH Hin) as (pre & post & ->).
    exists (y ++ sep ++ pre), post. by rewrite <- !app_assoc.
Qed.

Lemma substring_of_context (x s a b : pystr) :
  substring_of x s → substring_of x (a ++ s ++ b).
Proof.
  intros (pre & post & ->). exists (a ++ pre), (post ++ b).
  by rewrite <- !app_assoc.
Qed.

(** X5.  The output document is the fixed shell with the font faces and the
    unique styles in its style element, then one wrapper per slide in
    extraction order, then the closing tags.  Every slide (in its wrapper),
    every unique style and every font face stands in it as it is. *)
Theorem output_holds_extracted content :
  output_html_of charref_sub content
  = shell_head ++ join nl (font_faces_of content) ++ shell_styles
    ++ join nl (unique_styles_of content) ++ shell_print
    ++ concat (map slide_wrapper (slides_of charref_sub content))
    ++ str "</body>" ++ nl ++ str "</html>"
  ∧ (∀ frag, frag ∈ slides_of charref_sub content →
       substring_of (slide_wrapper frag) (output_html_of charref_sub content))
  ∧ (∀ style, style ∈ unique_styles_of content →
       substring_of style (output_html_of charref_sub content))
  ∧ (∀ rule, rule ∈ font_faces_of content →
       substring_of rule (output_html_of charref_sub content)).
Proof.
  assert (output_html_of charref_sub content
          = shell_head ++ join nl (font_faces_of content) ++ shell_styles
            ++ join nl (unique_styles_of content) ++ shell_print
            ++ concat (map slide_wrapper (slides_of charref_sub content))
            ++ str "</body>" ++ nl ++ str "</html>") as Hlayout.
  { unfold output_html_of, shell. rewrite foldl_add_slide.
    by rewrite <- !app_assoc. }
  split; [done|]. rewrite Hlayout. split; [|split].
  - intros frag Hin.
    assert (slide_wrapper frag
            ∈ map slide_wrapper (slides_of charref_sub content)) as Hw
      by (by apply list_elem_of_fmap_2).
    apply substring_of_concat in Hw.
    apply (substring_of_context _ _
             (shell_head ++ join nl (font_faces_of content) ++ shell_styles
              ++ join nl (unique_styles_of content) ++ shell_print)
             (str "</body>" ++ nl ++ str "</html>")) in Hw.
    by rewrite <- !app_assoc in Hw.
  - intros style Hin. apply (substring_of_join nl) in Hin.
    apply (substring_of_context _ _
             (shell_head ++ join nl (font_faces_of content) ++ shell_styles)
             (shell_print
              ++ concat (map slide_wrapper (slides_of charref_sub content))
              ++ str "</body>" ++ nl ++ str "</html>")) in Hin.
    by rewrite <- !app_assoc in Hin.
  - intros rule Hin. apply (substring_of_join nl) in Hin.
    by apply (substring_of_context _ _ shell_head
             (shell_styles ++ join nl (unique_styles_of content) ++ shell_print
              ++ concat (map slide_wrapper (slides_of charref_sub content))
              ++ str "</body>" ++ nl ++ str "</html>")) in Hin.
Qed.

End SlideProperties.

(** ** Fragments, once more *)

Section FragmentProperties.

Variable charref_sub : pystr → pystr.

Lemma slides_of_source content frag :
  frag ∈ slides_of charref_sub content →
  ∃ section, section ∈ tail (body_splits content)
             ∧ frag ∈ section_step charref_sub [] section.
Proof.
  unfold slides_of. rewrite foldl_section_step. simpl.
  intros Hin. apply list_elem_of_In, in_concat in Hin as (l & Hl & Hfrag).
  apply in_map_iff in Hl as (section & <- & Hsec).
  exists section. split; by apply list_elem_of_In.
Qed.

(** X6.  Every slide is a contiguous piece, taken as it is, of the
    unescaped text of a section that follows a [<body>] and holds
    [slide-container]; it ends with the closing tag [</div>], is at least 33
    characters long and has no white space around it. *)
Theorem fragment_verbatim content frag :
  frag ∈ slides_of charref_sub content →
  ∃ section,
    section ∈ tail (body_splits content)
    ∧ contains "slide-container" section = true
    ∧ substring_of frag (unescape charref_sub section)
    ∧ (∃ body, frag = container_marker ++ body ++ str "</div>")
    ∧ 33 ≤ len frag
    ∧ strip frag = frag.
Proof.
  intros (section & Hsec & Hin)%slides_of_source. exists section.
  split; [done|]. split.
  { destruct (contains "slide-container" section) eqn:E; [done|].
    rewrite section_step_no_marker in Hin by done. by apply elem_of_nil in Hin. }
  destruct (section_step_fragment _ _ _ Hin) as [body Hbody].
  apply section_step_slice in Hin as (Hcs & Hm & Hlt & Hfrag).
  destruct (find_container_end_found _ _ Hcs Hlt) as (nc & Hle & He & Hlen & _).
  split; [|split; [by exists body|split]].
  - rewrite Hfrag. apply slice_substring; lia.
  - rewrite Hbody. unfold len. rewrite !length_app, container_marker_length.
    change (length (str "</div>")) with 6%nat. lia.
  - rewrite Hbody. apply strip_container_slice.
Qed.

End FragmentProperties.

(** ** The scan as a loop *)

Lemma scan_result fuel slide_html div_count pos e :
  0 ≤ pos → scan fuel slide_html div_count pos = Some e →
  e = -1 ∨ (pos + 6 ≤ e ∧ e ≤ len slide_html).
Proof.
  intros Hpos Hscan.
  destruct (scan_tags _ _ _ _ _ Hpos Hscan) as [[-> _]|[He _]]; [by left|].
  destruct (scan_found _ _ _ _ _ Hpos Hscan He) as (nc & ? & -> & ? & _).
  right. lia.
Qed.

(** X7.  The loop of the container scan ends: from a cursor [pos] it makes
    at most [len(slide_html) - pos + 1] iterations, whatever the counter, and
    it ends either without a container end or with one that lies at least
    six characters after the cursor and inside the text. *)
Theorem scan_terminates slide_html div_count pos :
  0 ≤ pos →
  ∃ e, (e = -1 ∨ (pos + 6 ≤ e ∧ e ≤ len slide_html))
       ∧ ∀ fuel, (0 < fuel)%nat → len slide_html - pos < Z.of_nat fuel →
                 scan fuel slide_html div_count pos = Some e.
Proof.
  intros Hpos.
  set (fuel0 := S (Z.to_nat (len slide_html - pos))).
  destruct (scan_enough_fuel fuel0 slide_html div_count pos Hpos)
    as [e He]; [lia | lia |].
  exists e. split; [by apply (scan_result fuel0 _ div_count)|].
  intros fuel Hfuel0 Hfuel.
  destruct (scan_enough_fuel fuel slide_html div_count pos Hpos Hfuel0 Hfuel)
    as [e' He'].
  pose proof (scan_fuel_mono fuel0 (fuel `max` fuel0) slide_html div_count
                pos e ltac:(lia) He) as H1.
  pose proof (scan_fuel_mono fuel (fuel `max` fuel0) slide_html div_count
                pos e' ltac:(lia) He') as H2.
  congruence.
Qed.

(** ** The text before the container *)

Lemma find_shift pre s sub p :
  0 ≤ p → find (pre ++ s) sub (len pre + p) = shifted (len pre) (find s sub p).
Proof.
  intros Hp. unfold find, norm_index, shifted.
  assert (0 ≤ len pre) by (unfold len; lia).
  destruct (Z.ltb_spec (len pre + p) 0); [lia|].
  destruct (Z.ltb_spec p 0); [lia|].
  replace (drop (Z.to_nat (len pre + p)) (pre ++ s))
    with (drop (Z.to_nat p) s).
  2:{ replace (Z.to_nat (len pre + p)) with (length pre + Z.to_nat p)%nat
        by (unfold len; lia).
      by rewrite drop_app_add. }
  assert (len (pre ++ s) = len pre + len s) as ->
    by (unfold len; rewrite length_app; lia).
  destruct (Z.ltb_spec (len pre + len s) (len pre + p)),
    (Z.ltb_spec (len s) p); try lia; [done|].
  destruct (search sub (drop (Z.to_nat p) s)) as [k|]; [|done].
  destruct (Z.ltb_spec (p + Z.of_nat k) 0); lia.
Qed.

Lemma shifted_nonneg shift e : 0 ≤ e → shifted shift e = shift + e.
Proof. intros He. unfold shifted. by destruct (Z.ltb_spec e 0); [lia|]. Qed.

Lemma shifted_neg shift e : e < 0 → shifted shift e = e.
Proof. intros He. unfold shifted. by destruct (Z.ltb_spec e 0); [|lia]. Qed.

Lemma scan_shift pre fuel s div_count pos :
  0 ≤ pos →
  scan fuel (pre ++ s) div_count (len pre + pos)
  = shifted (len pre) <$> scan fuel s div_count pos.
Proof.
  assert (0 ≤ len pre) as HL by (unfold len; lia).
  revert div_count pos. induction fuel as [|fuel IH]; intros dc pos Hpos; [done|].
  cbn [scan]. rewrite !find_shift by done.
  assert (len (pre ++ s) = len pre + len s) as ->
    by (unfold len; rewrite length_app; lia).
  pose proof (find_ge s "<div" pos Hpos div_open_nonempty) as Hoge.
  pose proof (find_ge s "</div>" pos Hpos div_close_nonempty) as Hcge.
  set (next_open := find s "<div" pos) in *.
  set (next_close := find s "</div>" pos) in *.
  destruct (Z.ltb_spec (len pre + pos) (len pre + len s)),
    (Z.ltb_spec pos (len s)); try lia; [|done].
  destruct (Z.ltb_spec next_close 0) as [Hc|Hc].
  { rewrite (shifted_neg _ next_close) by done.
    by destruct (Z.ltb_spec next_close 0); [|lia]. }
  rewrite (shifted_nonneg _ next_close) by done.
  destruct (Z.ltb_spec (len pre + next_close) 0); [lia|].
  assert (∀ x, 0 ≤ x → Some (len pre + x) = shifted (len pre) <$> Some x)
    as Hsome.
  { intros x Hx. simpl. by rewrite shifted_nonneg. }
  destruct (Z.ltb_spec next_open 0) as [Ho|Ho].
  - rewrite (shifted_neg _ next_open) by done.
    destruct (Z.leb_spec 0 next_open); [lia|]. cbn [andb].
    destruct (dc =? 0).
    + rewrite <- Hsome by lia. f_equal. lia.
    + replace (len pre + next_close + 6) with (len pre + (next_close + 6)) by lia.
      apply IH. lia.
  - rewrite (shifted_nonneg _ next_open) by done.
    destruct (Z.leb_spec 0 (len pre + next_open)); [|lia].
    destruct (Z.leb_spec 0 next_open); [|lia]. cbn [andb].
    destruct (Z.ltb_spec (len pre + next_open) (len pre + next_close)),
      (Z.ltb_spec next_open next_close); try lia.
    + replace (len pre + next_open + 4) with (len pre + (next_open + 4)) by lia.
      apply IH. lia.
    + destruct (dc =? 0).
      * rewrite <- Hsome by lia. f_equal. lia.
      * replace (len pre + next_close + 6) with (len pre + (next_close + 6))
          by lia.
        apply IH. lia.
Qed.

(** X8.  The text before the container has no part in the scan: with any
    text put in front, the container end moves by the length of that text
    (or stays not found), and the slice taken is the same. *)
Theorem container_end_shift pre slide_html container_start :
  0 ≤ container_start →
  find_container_end (pre ++ slide_html) (len pre + container_start)
  = shifted (len pre) (find_container_end slide_html container_start)
  ∧ (container_start < find_container_end slide_html container_start →
     slice (pre ++ slide_html) (len pre + container_start)
       (find_container_end (pre ++ slide_html) (len pre + container_start))
     = slice slide_html container_start
         (find_container_end slide_html container_start)).
Proof.
  intros Hcs. assert (0 ≤ len pre) as HL by (unfold len; lia).
  assert (find_container_end (pre ++ slide_html) (len pre + container_start)
          = shifted (len pre) (find_container_end slide_html container_start))
    as Hshift.
  { pose proof (find_container_end_scan slide_html container_start Hcs) as Hs.
    apply (scan_fuel_mono _ (S (length (pre ++ slide_html)))) in Hs;
      [|rewrite length_app; lia].
    unfold find_container_end at 1.
    by rewrite scan_shift, Hs by done. }
  split; [done|]. intros Hlt. rewrite Hshift.
  destruct (find_container_end_found _ _ Hcs Hlt) as (nc & Hle & He & Hlen & _).
  unfold shifted. destruct (Z.ltb_spec (find_container_end slide_html container_start) 0);
    [lia|].
  rewrite !slice_inside
    by (try lia; unfold len in *; rewrite ?length_app; lia).
  replace (Z.to_nat (len pre + container_start))
    with (length pre + Z.to_nat container_start)%nat by (unfold len; lia).
  rewrite drop_app_add. f_equal. lia.
Qed.

(** ** The deduplicator, once more *)

Lemma keep_first_sublist l : keep_first l `sublist_of` l.
Proof.
  induction l as [|x l IH]; simpl; [done|].
  apply sublist_skip. etransitivity; [apply sublist_filter | done].
Qed.

(** X9.  The unique styles hold no text twice, keep the order of the style
    blocks of the document, and are exactly the style blocks longer than 100
    characters: no such block is lost. *)
Theorem unique_styles_characterised content :
  NoDup (unique_styles_of content)
  ∧ unique_styles_of content `sublist_of` style_matches_of content
  ∧ ∀ t, t ∈ unique_styles_of content
         ↔ t ∈ style_matches_of content ∧ 100 < len t.
Proof.
  unfold unique_styles_of. split; [apply dedup_NoDup|]. split.
  - rewrite dedup_spec. unfold unique_styles_spec.
    etransitivity; [apply keep_first_sublist | apply sublist_filter].
  - intros t. apply dedup_elem.
Qed.

(** ** When a container end is found *)

(** X11.  The scan finds a container end exactly when, reading the [div]
    tags from the marker on with the container's own opening tag counted,
    some closing tag is met with the counter at zero; the end then lies
    after the start. *)
Theorem container_end_found_iff slide_html container_start :
  0 ≤ container_start →
  (container_start < find_container_end slide_html container_start
   ↔ is_Some (terminator (tags (drop (Z.to_nat container_start) slide_html)) 0))
  ∧ (find_container_end slide_html container_start = -1
     ∨ container_start + 6 ≤ find_container_end slide_html container_start).
Proof.
  intros Hcs.
  pose proof (find_container_end_scan slide_html container_start Hcs) as Hs.
  pose proof (scan_result _ _ _ _ _ Hcs Hs) as Hres.
  split; [|destruct Hres as [?|[? _]]; [by left | by right]].
  destruct (scan_tags _ _ _ _ _ Hcs Hs) as [[He Hnone]|(He & n & Hn & _)].
  - rewrite He, Hnone. split; [lia | by intros [? ?]].
  - rewrite Hn. split; [by eauto | intros _]. destruct Hres as [?|[? _]]; lia.
Qed.

(** ** Documents without a closing tag or brace *)

Lemma find_absent s sub start :
  sub ≠ [] → 0 ≤ start → contains sub s = false → find s sub start = -1.
Proof.
  intros Hsub Hstart Hno.
  destruct (find_spec s sub start Hstart Hsub) as [[E _]|(_ & _ & Hocc & _)];
    [done|].
  by destruct (proj1 (contains_false _ _) Hno _ Hocc).
Qed.

Lemma findall_style_unclosed fuel content pos :
  0 ≤ pos → contains "</style>" content = false →
  findall_style fuel content pos = [].
Proof.
  intros Hpos Hno. revert pos Hpos.
  induction fuel as [|fuel IH]; intros pos Hpos; [done|].
  cbn [findall_style]. set (i := find content "<style" pos).
  destruct (Z.ltb_spec i 0) as [|Hi]; [done|].
  pose proof (find_ge content "<style" pos Hpos ltac:(done) Hi) as Hge.
  fold i in Hge. set (j := find content ">" (i + 6)).
  destruct (Z.leb_spec 0 j) as [Hj|Hj]; cbn [andb]; [|apply IH; lia].
  rewrite (find_absent content "</style>" (j + 1)) by (done || lia).
  cbn [Z.leb]. apply IH. lia.
Qed.

Lemma findall_font_face_unclosed fuel content pos :
  0 ≤ pos → contains "}" content = false →
  findall_font_face fuel content pos = [].
Proof.
  intros Hpos Hno. revert pos Hpos.
  induction fuel as [|fuel IH]; intros pos Hpos; [done|].
  cbn [findall_font_face]. set (i := find content "@font-face{" pos).
  destruct (Z.ltb_spec i 0) as [|Hi]; [done|].
  pose proof (find_ge content "@font-face{" pos Hpos ltac:(done) Hi) as Hge.
  fold i in Hge.
  rewrite (find_absent content "}" (i + 11)) by (done || lia).
  destruct (Z.ltb_spec (i + 11) (-1)); [lia|]. apply IH. lia.
Qed.

(** X12.  A document without any [</style>] gives no style block, however
    many style elements it opens, and a document without any [}] gives no
    font face: an unterminated block is dropped, not cut at the end of the
    text. *)
Theorem unterminated_blocks_dropped content :
  (contains "</style>" content = false →
   style_matches_of content = [] ∧ unique_styles_of content = [])
  ∧ (contains "}" content = false → font_faces_of content = []).
Proof.
  split.
  - intros Hno. unfold unique_styles_of, style_matches_of.
    by rewrite findall_style_unclosed.
  - intros Hno. by apply findall_font_face_unclosed.
Qed.

(** ** Instances of the further conditional statements *)

Lemma font_face_shape_witness :
  substring_of (str "@font-face{font-family:A}") styled_document.
Proof.
  apply (font_face_shape styled_document (str "@font-face{font-family:A}")).
  vm_compute. apply list_elem_of_here.
Defined.

Lemma style_match_shape_witness :
  contains "</style>" long_style = false.
Proof.
  apply (style_match_shape styled_document long_style).
  vm_compute. apply list_elem_of_here.
Defined.

Lemma output_holds_extracted_witness :
  substring_of (slide_wrapper (bare_container ++ str "</div>"))
    (output_html_of (λ s, s) (str "<body>" ++ wrapped_container)).
Proof.
  apply (proj1 (proj2 (output_holds_extracted (λ s, s)
                         (str "<body>" ++ wrapped_container)))).
  vm_compute. apply list_elem_of_here.
Defined.

Lemma fragment_verbatim_witness :
  ∃ section,
    section ∈ tail (body_splits (str "<body>" ++ wrapped_container))
    ∧ contains "slide-container" section = true
    ∧ substring_of (bare_container ++ str "</div>") (unescape (λ s, s) section)
    ∧ (∃ body, bare_container ++ str "</div>"
               = container_marker ++ body ++ str "</div>")
    ∧ 33 ≤ len (bare_container ++ str "</div>")
    ∧ strip (bare_container ++ str "</div>") = bare_container ++ str "</div>".
Proof.
  apply (fragment_verbatim (λ s, s) (str "<body>" ++ wrapped_container)).
  vm_compute. apply list_elem_of_here.
Defined.

Lemma scan_terminates_witness :
  ∃ e, (e = -1 ∨ (0 + 6 ≤ e ∧ e ≤ len bare_container))
       ∧ ∀ fuel, (0 < fuel)%nat → len bare_container - 0 < Z.of_nat fuel →
                 scan fuel bare_container 0 0 = Some e.
Proof. apply (scan_terminates bare_container 0 0). lia. Defined.

Lemma container_end_shift_witness :
  find_container_end
    (str "<div class=wrap>" ++ (bare_container ++ str "</div>"))
    (len (str "<div class=wrap>") + 0)
  = shifted (len (str "<div class=wrap>"))
      (find_container_end (bare_container ++ str "</div>") 0).
Proof.
  apply (container_end_shift (str "<div class=wrap>")
           (bare_container ++ str "</div>") 0).
  lia.
Defined.

Lemma unique_styles_characterised_witness :
  long_style ∈ unique_styles_of long_style_twice.
Proof.
  apply (unique_styles_characterised long_style_twice). split.
  - vm_compute. apply list_elem_of_here.
  - by vm_compute.
Defined.

Lemma container_end_found_iff_witness :
  0 < find_container_end (bare_container ++ str "</div>") 0
  ↔ is_Some (terminator (tags (drop (Z.to_nat 0)
                                 (bare_container ++ str "</div>"))) 0).
Proof.
  apply (container_end_found_iff (bare_container ++ str "</div>") 0). lia.
Defined.

Lemma unterminated_blocks_dropped_witness :
  style_matches_of (str "<style>body { margin: 0 }") = []
  ∧ unique_styles_of (str "<style>body { margin: 0 }") = [].
Proof.
  apply (unterminated_blocks_dropped (str "<style>body { margin: 0 }")).
  by vm_compute.
Defined.
